(** * Always-on-top window geometry (alwaysontop/main.js)

    A shallow embedding of the main-process half of the always-on-top
    window: the module-level state ([position], [size], [oldSize]), the
    placement functions ([positionWindowWithinScreenBoundaries],
    [getPosition], [getSize]), the resize handlers installed by
    [setAspectRatioToResizeableWindow], the IPC listener installed by
    [setupAlwaysOnTopMain] and the window creation of
    [onAlwaysOnTopWindow].

    Numbers.  Electron's [Rectangle], [Point] and [Size] carry integer
    pixel values, on which the double arithmetic of JavaScript ([+], [-],
    comparisons, [Math.min], [Math.max], [Math.abs]) is exact; they are
    modelled in [Z].  The only non-integral quantity of the module is
    [ASPECT_RATIO = 16 / 9]; divisions and multiplications by it are
    computed in IEEE binary64 ([spec_float] with 53 bits of precision), as
    the interpreter does, and [Math.round] brings the result back to [Z]. *)

From Stdlib Require Import ZArith Lia SpecFloat.
From stdpp Require Import gmap strings list.

Local Open Scope Z_scope.

(** ** JavaScript numbers *)

Module Number.

Definition prec : Z := 53.
Definition emax : Z := 1024.

(** The double nearest to an integer (exact up to [2 ^ 53]). *)
Definition of_Z (z : Z) : spec_float := binary_normalize prec emax z 0 false.

Definition div (a b : spec_float) : spec_float := SFdiv prec emax a b.
Definition mul (a b : spec_float) : spec_float := SFmul prec emax a b.

End Number.

Module Math.

Definition max (a b : Z) : Z := Z.max a b.
Definition min (a b : Z) : Z := Z.min a b.
Definition abs (a : Z) : Z := Z.abs a.

(** [Math.round]: the integer nearest to [f], a tie going towards
    +infinity, that is [floor (f + 1/2)] computed exactly.  A finite
    double is [(-1)^s * m * 2^e].  NaN and the infinities are no pixel
    count; they are sent to [0] and are not reached from window sizes. *)
Definition round (f : spec_float) : Z :=
  match f with
  | S754_finite s m e =>
      let v := if s then Z.neg m else Z.pos m in
      if 0 <=? e then v * 2 ^ e else (2 * v + 2 ^ (- e)) / 2 ^ (1 - e)
  | _ => 0
  end.

End Math.

(** ** JavaScript values

    The values an IPC message is made of.  An object is a finite map from
    property names to values. *)

#[warnings="-register-all"]
Inductive value : Type :=
  | VUndefined
  | VNull
  | VBool (b : bool)
  | VNum (n : Z)
  | VStr (s : string)
  | VObj (o : gmap string value).

Inductive error : Type :=
  | TypeError.

Inductive completion (A : Type) : Type :=
  | Normal (a : A)
  | Throw (e : error).

Arguments Normal {A} a.
Arguments Throw {A} e.

(** [typeof v === 'number'] *)
Definition typeof_number (v : value) : bool :=
  match v with
  | VNum _ => true
  | _ => false
  end.

(** [v === s] for a string literal [s] *)
Definition strict_eq_str (v : value) (s : string) : bool :=
  match v with
  | VStr t => bool_decide (t = s)
  | _ => false
  end.

(** [o.k] on an object: a missing property reads as [undefined]. *)
Definition prop (o : gmap string value) (k : string) : value :=
  default VUndefined (o !! k).

(** [v.k] on any value, for the property names this module reads ([type],
    [data], [name], [x], [y]): [undefined] and [null] have no properties
    and the access throws; booleans, numbers and strings have none of
    these five. *)
Definition get (v : value) (k : string) : completion value :=
  match v with
  | VUndefined | VNull => Throw TypeError
  | VObj o => Normal (prop o k)
  | VBool _ | VNum _ | VStr _ => Normal VUndefined
  end.

(** ** Geometry records of the toolkit *)

Module Point.
Record t : Type := mk { x : Z; y : Z }.
End Point.

Module Size.
Record t : Type := mk { width : Z; height : Z }.
End Size.

Module Rectangle.
Record t : Type := mk { x : Z; y : Z; width : Z; height : Z }.
End Rectangle.

Module Display.
Record t : Type := mk { workArea : Rectangle.t }.
End Display.

(** ** External collaborators

    What the module asks of [os], [electron.screen] and [robotjs], and the
    [SIZE] constant of [./constants]. *)

Record Env : Type := mkEnv {
  SIZE : Size.t;
  os_platform : string;
  os_type : string;
  getDisplayMatching : Rectangle.t -> option Display.t;
  getDisplayNearestPoint : Point.t -> Display.t;
  getCursorScreenPoint : Point.t;
  getMousePos : Point.t
}.

(** A [BrowserWindow] as the handlers see it: the size the toolkit
    currently reports. *)
Record BrowserWindow : Type := mkWin {
  win_getSize : Z * Z
}.

(** Calls made to the toolkit, in order. *)
Inductive call : Type :=
  | SetAspectRatio (aspectRatio : spec_float)
  | SetSize (width height : Z)
  | PreventDefault.

(** ** Module state *)

Record World : Type := mkWorld {
  position : gmap string value;
  size : Size.t;
  oldSize : option (Z * Z);
  calls : list call
}.

(** [let position = {}; let size = Object.assign({}, SIZE); let oldSize;] *)
Definition initial (env : Env) : World :=
  {| position := ∅; size := SIZE env; oldSize := None; calls := [] |}.

Definition set_position (p : gmap string value) (w : World) : World :=
  {| position := p; size := size w; oldSize := oldSize w; calls := calls w |}.

Definition set_size (s : Size.t) (w : World) : World :=
  {| position := position w; size := s; oldSize := oldSize w; calls := calls w |}.

Definition set_oldSize (o : Z * Z) (w : World) : World :=
  {| position := position w; size := size w; oldSize := Some o; calls := calls w |}.

Definition emit (c : call) (w : World) : World :=
  {| position := position w; size := size w; oldSize := oldSize w;
     calls := calls w ++ [c] |}.

(** Handlers run in a state-and-exception monad over [World]. *)
Definition M (A : Type) : Type := World -> completion A * World.

Definition ret {A : Type} (a : A) : M A := fun w => (Normal a, w).

Definition bind {A B : Type} (m : M A) (k : A -> M B) : M B :=
  fun w =>
    match m w with
    | (Normal a, w') => k a w'
    | (Throw e, w') => (Throw e, w')
    end.

Definition lift {A : Type} (c : completion A) : M A := fun w => (c, w).

Definition modify (f : World -> World) : M unit := fun w => (Normal tt, f w).

Definition read {A : Type} (f : World -> A) : M A := fun w => (Normal (f w), w).

Declare Scope js_scope.
Delimit Scope js_scope with js.
Notation "x <- m ;; k" := (bind m (fun x => k))
  (at level 100, m at next level, right associativity) : js_scope.
Notation "m ;;; k" := (bind m (fun _ => k))
  (at level 100, right associativity) : js_scope.

(** ** Placement *)

Definition ASPECT_RATIO : spec_float :=
  Number.div (Number.of_Z 16) (Number.of_Z 9).

Definition positionWindowWithinScreenBoundaries
    (windowRectangle screenRectangle : Rectangle.t) : Point.t :=
  let minY := Rectangle.y screenRectangle in
  let minX := Rectangle.x screenRectangle in
  let maxY := Rectangle.y screenRectangle + Rectangle.height screenRectangle
              - Rectangle.height windowRectangle in
  let maxX := Rectangle.x screenRectangle + Rectangle.width screenRectangle
              - Rectangle.width windowRectangle in
  {| Point.x := Math.min (Math.max (Rectangle.x windowRectangle) minX) maxX;
     Point.y := Math.min (Math.max (Rectangle.y windowRectangle) minY) maxY |}.

Definition getPosition (env : Env) (w : World) : Point.t :=
  match prop (position w) "x", prop (position w) "y" with
  | VNum px, VNum py =>
      let stored := {| Point.x := px; Point.y := py |} in
      if bool_decide (os_platform env = "win32") then
        (* Object.assign({}, position, size) *)
        let windowRectangle :=
          {| Rectangle.x := px; Rectangle.y := py;
             Rectangle.width := Size.width (size w);
             Rectangle.height := Size.height (size w) |} in
        match getDisplayMatching env windowRectangle with
        | Some matchingScreen =>
            positionWindowWithinScreenBoundaries
              windowRectangle (Display.workArea matchingScreen)
        | None => stored
        end
      else stored
  | _, _ =>
      let wa := Display.workArea
                  (getDisplayNearestPoint env (getCursorScreenPoint env)) in
      {| Point.x := Rectangle.x wa + Rectangle.width wa - Size.width (size w);
         Point.y := Rectangle.y wa |}
  end.

(** [size.width] and [size.height] are numbers by construction here, so
    the [typeof] test of the source always succeeds. *)
Definition getSize (env : Env) (w : World) : Size.t := size w.

(** ** Aspect ratio during resize *)

(** The ['will-resize'] listener of the custom implementation. *)
Definition willResize (env : Env) (win : BrowserWindow)
    (newBounds : Rectangle.t) : M unit :=
  (modify (set_oldSize (win_getSize win)) ;;;
   let mousePos := getMousePos env in
   let windowBottomRightPos :=
     {| Point.x := Rectangle.x newBounds + Rectangle.width newBounds - 16;
        Point.y := Rectangle.y newBounds + Rectangle.height newBounds - 16 |} in
   if (Point.x mousePos >=? Point.x windowBottomRightPos)
      && (Point.y mousePos >=? Point.y windowBottomRightPos)
   then modify (emit PreventDefault)
   else ret tt)%js.

(** The ['resize'] listener of the custom implementation.  [oldSize] is
    [undefined] until a ['will-resize'] has been seen, and indexing it
    throws. *)
Definition resizeManual (aspectRatio : spec_float) (win : BrowserWindow)
    : M unit :=
  (let '(width, height) := win_getSize win in
   old <- read oldSize ;;
   match old with
   | None => lift (Throw TypeError)
   | Some (oldWidth, oldHeight) =>
       let '(width, height) :=
         if Math.abs (oldWidth - width) >=? Math.abs (oldHeight - height)
         then (width,
               Math.round (Number.div (Number.of_Z width) aspectRatio))
         else (Math.round (Number.mul (Number.of_Z height) aspectRatio),
               height) in
       modify (emit (SetSize width height)) ;;;
       modify (set_size {| Size.width := width; Size.height := height |})
   end)%js.

(** The ['resize'] listener on macOS. *)
Definition resizeNative (win : BrowserWindow) : M unit :=
  let '(width, height) := win_getSize win in
  modify (set_size {| Size.width := width; Size.height := height |}).

(** The listeners a window ends up with. *)
Record Listeners : Type := mkListeners {
  on_will_resize : option (Env -> BrowserWindow -> Rectangle.t -> M unit);
  on_resize : BrowserWindow -> M unit
}.

Definition setAspectRatioToResizeableWindow (env : Env)
    (aspectRatio : spec_float) : M Listeners :=
  (if bool_decide (os_type env = "Darwin") then
     modify (emit (SetAspectRatio aspectRatio)) ;;;
     ret {| on_will_resize := None; on_resize := resizeNative |}
   else
     ret {| on_will_resize := Some willResize;
            on_resize := resizeManual aspectRatio |})%js.

(** ** The IPC listener *)

(** The parameter pattern [{ type, data = {} }]: the default applies to a
    [data] that is [undefined], not to [null]. *)
Definition destructure (msg : value) : completion (value * value) :=
  match get msg "type", get msg "data" with
  | Normal type, Normal data =>
      Normal (type, match data with VUndefined => VObj ∅ | _ => data end)
  | Throw e, _ | _, Throw e => Throw e
  end.

(** The listener [setupAlwaysOnTopMain] registers on
    ['jitsi-always-on-top']. *)
Definition setupAlwaysOnTopMain (env : Env) (msg : value) : M unit :=
  (args <- lift (destructure msg) ;;
   let '(type, data) := args in
   (if strict_eq_str type "event" then
      name <- lift (get data "name") ;;
      if strict_eq_str name "position" then
        x <- lift (get data "x") ;;
        y <- lift (get data "y") ;;
        modify (set_position (<["x" := x]> (<["y" := y]> ∅)))
      else ret tt
    else ret tt) ;;;
   (if strict_eq_str type "event" then
      name <- lift (get data "name") ;;
      if strict_eq_str name "resetSize" then modify (set_size (SIZE env))
      else ret tt
    else ret tt))%js.

(** The state after a sequence of messages; a listener that throws leaves
    the state as it was when it threw. *)
Definition deliver (env : Env) (msgs : list value) (w : World) : World :=
  fold_left (fun w msg => snd (setupAlwaysOnTopMain env msg w)) msgs w.

(** ** Vocabulary of the properties *)

(** Rectangle [r] lies inside rectangle [s]. *)
Definition within (r s : Rectangle.t) : Prop :=
  Rectangle.x s <= Rectangle.x r
  /\ Rectangle.x r + Rectangle.width r <= Rectangle.x s + Rectangle.width s
  /\ Rectangle.y s <= Rectangle.y r
  /\ Rectangle.y r + Rectangle.height r <= Rectangle.y s + Rectangle.height s.

(** Rectangle [r] moved to have its top-left corner at [p]. *)
Definition moveTo (p : Point.t) (r : Rectangle.t) : Rectangle.t :=
  {| Rectangle.x := Point.x p; Rectangle.y := Point.y p;
     Rectangle.width := Rectangle.width r;
     Rectangle.height := Rectangle.height r |}.

(** Stored position: both coordinates are numbers, or none is. *)
Definition populated (p : gmap string value) : Prop :=
  exists x y : Z, prop p "x" = VNum x /\ prop p "y" = VNum y.

Definition unpopulated (p : gmap string value) : Prop :=
  typeof_number (prop p "x") = false /\ typeof_number (prop p "y") = false.

(** The coordinates a message makes the listener store, if any. *)
Definition reported (msg : value) : option (value * value) :=
  match destructure msg with
  | Normal (type, data) =>
      if strict_eq_str type "event" then
        match get data "name", get data "x", get data "y" with
        | Normal name, Normal x, Normal y =>
            if strict_eq_str name "position" then Some (x, y) else None
        | _, _, _ => None
        end
      else None
  | Throw _ => None
  end.

(** A message that reports a position reports two numbers. *)
Definition numeric_report (msg : value) : Prop :=
  forall x y, reported msg = Some (x, y) ->
    typeof_number x = true /\ typeof_number y = true.

(** The listener takes [msg] for an ['event'] named [name]. *)
Definition handled_as (msg : value) (name : string) : Prop :=
  exists type data,
    destructure msg = Normal (type, data)
    /\ strict_eq_str type "event" = true
    /\ get data "name" = Normal (VStr name).

(** Any other message: its [type] is not ['event'], or its [data.name]
    is neither ['position'] nor ['resetSize']. *)
Definition unexpected (msg : value) : Prop :=
  ~ handled_as msg "position" /\ ~ handled_as msg "resetSize".

(** A message with nothing to read a [type] from, or an ['event'] with
    no [data] to read a [name] from. *)
Definition unreadable (msg : value) : Prop :=
  msg = VUndefined \/ msg = VNull
  \/ exists o, msg = VObj o /\ prop o "type" = VStr "event"
                /\ prop o "data" = VNull.

(** [{ type: 'event', data: { name: 'position', x, y } }] *)
Definition position_message (x y : value) : value :=
  VObj (<["type" := VStr "event"]>
        (<["data" := VObj (<["name" := VStr "position"]>
                           (<["x" := x]> (<["y" := y]> ∅)))]> ∅)).

(** The ['will-resize'] step was vetoed: [e.preventDefault()] is the call
    the listener added. *)
Definition vetoed (before after : World) : Prop :=
  calls after = calls before ++ [PreventDefault].

(** The state once [win.setSize(width, height)] has been called and the
    size stored. *)
Definition resized (width height : Z) (w : World) : World :=
  {| position := position w;
     size := {| Size.width := width; Size.height := height |};
     oldSize := oldSize w;
     calls := calls w ++ [SetSize width height] |}.

(** [f] and [g] agree on [0 .. n - 1]; decided by running both. *)
Definition agrees_below (n : Z) (f g : Z -> Z) : bool :=
  forallb (fun z => f z =? g z) (seqZ 0 n).

(** A desktop with one 1920x1080 display, for the examples. *)
Definition fullHD : Display.t :=
  {| Display.workArea :=
       {| Rectangle.x := 0; Rectangle.y := 0;
          Rectangle.width := 1920; Rectangle.height := 1080 |} |}.

Definition desktop (platform type : string) (mouse : Point.t) : Env :=
  {| SIZE := {| Size.width := 320; Size.height := 180 |};
     os_platform := platform;
     os_type := type;
     getDisplayMatching := fun _ => Some fullHD;
     getDisplayNearestPoint := fun _ => fullHD;
     getCursorScreenPoint := mouse;
     getMousePos := mouse |}.

(** ** Window creation *)

(** [Object.assign(target, ...sources)]: the properties of each source
    are copied onto the target in turn, a later source overriding what is
    there. *)
Definition Object_assign (target : gmap string value)
    (sources : list (gmap string value)) : gmap string value :=
  fold_left (fun t s => s ∪ t) sources target.

(** A [Point] and a [Size] as the objects they are. *)
Definition point_object (p : Point.t) : gmap string value :=
  <["x" := VNum (Point.x p)]> (<["y" := VNum (Point.y p)]> ∅).

Definition size_object (s : Size.t) : gmap string value :=
  <["width" := VNum (Size.width s)]> (<["height" := VNum (Size.height s)]> ∅).

(** The literal passed to [Object.assign] in [onAlwaysOnTopWindow]. *)
Definition windowOptions (env : Env) : gmap string value :=
  <["backgroundColor" := VStr "transparent"]>
  (<["minWidth" := VNum (Size.width (SIZE env))]>
  (<["minHeight" := VNum (Size.height (SIZE env))]>
  (<["minimizable" := VBool false]>
  (<["maximizable" := VBool false]>
  (<["resizable" := VBool true]>
  (<["alwaysOnTop" := VBool true]>
  (<["fullscreen" := VBool false]>
  (<["fullscreenable" := VBool false]>
  (<["skipTaskbar" := VBool true]>
  (<["titleBarStyle" := VUndefined]>
  (<["frame" := VBool false]>
  (<["show" := VBool false]> ∅)))))))))))).

(** What [onAlwaysOnTopWindow] leaves behind for a frame it takes over:
    the options [new BrowserWindow] was given, the resize listeners, the
    ['ready-to-show'] listener (from what [win.isDestroyed()] answers to
    whether [win.showInactive()] is called) and the payload sent to the
    page on ['jitsi-always-on-top']. *)
Record NewWindow : Type := mkNewWindow {
  nw_options : gmap string value;
  nw_listeners : Listeners;
  nw_readyToShow : bool -> bool;
  nw_sent : value
}.

(** [onAlwaysOnTopWindow(jitsiMeetWindow, event, url, frameName,
    disposition, options)]; [id] is the [win.id] the toolkit gives the new
    window.  [None]: the request is not intercepted. *)
Definition onAlwaysOnTopWindow (env : Env) (id : Z) (frameName : string)
    (options : gmap string value) : M (option NewWindow) :=
  (if bool_decide (frameName = "AlwaysOnTop") then
     modify (emit PreventDefault) ;;;
     pos <- read (getPosition env) ;;
     sz <- read (getSize env) ;;
     let merged :=
       Object_assign options
         [windowOptions env; point_object pos; size_object sz] in
     listeners <- setAspectRatioToResizeableWindow env ASPECT_RATIO ;;
     ret (Some {| nw_options := merged;
                  nw_listeners := listeners;
                  nw_readyToShow := fun isDestroyed => negb isDestroyed;
                  nw_sent :=
                    VObj (<["type" := VStr "event"]>
                          (<["data" := VObj (<["id" := VNum id]>
                                             (<["name" := VStr "new-window"]> ∅))]>
                           ∅)) |})
   else ret None)%js.

(** ** Events of a session

    What reaches the custom listeners of one window and the IPC listener,
    with what the toolkit and the pointer report at that moment. *)
Inductive event : Type :=
  | Message (msg : value)
  | WillResize (mouse : Point.t) (current : Z * Z) (newBounds : Rectangle.t)
  | Resize (current : Z * Z).

(** The environment with the pointer at [mouse]. *)
Definition with_mouse (env : Env) (mouse : Point.t) : Env :=
  {| SIZE := SIZE env;
     os_platform := os_platform env;
     os_type := os_type env;
     getDisplayMatching := getDisplayMatching env;
     getDisplayNearestPoint := getDisplayNearestPoint env;
     getCursorScreenPoint := getCursorScreenPoint env;
     getMousePos := mouse |}.

(** One event handled by the listeners installed off macOS; an exception
    ends the listener and the state stays as it was left. *)
Definition handle (env : Env) (w : World) (e : event) : World :=
  match e with
  | Message msg => snd (setupAlwaysOnTopMain env msg w)
  | WillResize mouse current newBounds =>
      snd (willResize (with_mouse env mouse) {| win_getSize := current |}
             newBounds w)
  | Resize current =>
      snd (resizeManual ASPECT_RATIO {| win_getSize := current |} w)
  end.

Definition session (env : Env) (events : list event) (w : World) : World :=
  fold_left (handle env) events w.

(** The message of an event that is one. *)
Definition message_of (e : event) : option value :=
  match e with
  | Message msg => Some msg
  | _ => None
  end.

(** A ['resize'] event reports a size below 4096 on both axes. *)
Definition ordinary (e : event) : Prop :=
  match e with
  | Resize (width, height) => 0 <= width < 4096 /\ 0 <= height < 4096
  | _ => True
  end.


(** [16 : 9] up to the rounding of one side: [|9 w - 16 h| <= 8]. *)
Definition near_ratio (s : Size.t) : Prop :=
  Z.abs (9 * Size.width s - 16 * Size.height s) <= 8.

(** The placement [getPosition] falls back to. *)
Definition topRight (env : Env) (w : World) : Point.t :=
  let wa := Display.workArea
              (getDisplayNearestPoint env (getCursorScreenPoint env)) in
  {| Point.x := Rectangle.x wa + Rectangle.width wa - Size.width (size w);
     Point.y := Rectangle.y wa |}.

(** [{ type: 'event', data: { name: 'resetSize' } }] *)
Definition resetSize_message : value :=
  VObj (<["type" := VStr "event"]>
        (<["data" := VObj (<["name" := VStr "resetSize"]> ∅)]> ∅)).

(** * Properties *)

(** ** Clamping into a screen *)

Section Clamp.

Variables windowRectangle screenRectangle : Rectangle.t.

Let result := positionWindowWithinScreenBoundaries
                windowRectangle screenRectangle.

(** Per axis the result is [min (max origin lo) hi] with
    [lo = screenOrigin] and [hi = screenOrigin + screenExtent - windowExtent]. *)
Lemma clamp_x :
  Point.x result
  = Z.min (Z.max (Rectangle.x windowRectangle) (Rectangle.x screenRectangle))
          (Rectangle.x screenRectangle + Rectangle.width screenRectangle
           - Rectangle.width windowRectangle).
Proof. reflexivity. Qed.

Lemma clamp_y :
  Point.y result
  = Z.min (Z.max (Rectangle.y windowRectangle) (Rectangle.y screenRectangle))
          (Rectangle.y screenRectangle + Rectangle.height screenRectangle
           - Rectangle.height windowRectangle).
Proof. reflexivity. Qed.

End Clamp.

(** C1, as the code has it: when the window is strictly larger than the
    screen on an axis, the coordinate returned on that axis is the upper
    bound [screenOrigin + screenExtent - windowExtent], which lies strictly
    before the screen's origin: the far edges of window and screen coincide
    and the window overflows on the near side. *)
Theorem oversized_window_takes_max_bound (windowRectangle screenRectangle : Rectangle.t) :
  let p := positionWindowWithinScreenBoundaries windowRectangle screenRectangle in
  (Rectangle.width screenRectangle < Rectangle.width windowRectangle ->
     Point.x p = Rectangle.x screenRectangle + Rectangle.width screenRectangle
                 - Rectangle.width windowRectangle
     /\ Point.x p < Rectangle.x screenRectangle)
  /\ (Rectangle.height screenRectangle < Rectangle.height windowRectangle ->
     Point.y p = Rectangle.y screenRectangle + Rectangle.height screenRectangle
                 - Rectangle.height windowRectangle
     /\ Point.y p < Rectangle.y screenRectangle).
Proof.
  intros p; subst p; split; intros Hlarger.
  - rewrite clamp_x. lia.
  - rewrite clamp_y. lia.
Qed.

Lemma oversized_window_takes_max_bound_witness :
  let w := {| Rectangle.x := 0; Rectangle.y := 0;
              Rectangle.width := 200; Rectangle.height := 150 |} in
  let s := {| Rectangle.x := 0; Rectangle.y := 0;
              Rectangle.width := 100; Rectangle.height := 100 |} in
  Point.x (positionWindowWithinScreenBoundaries w s) = -100
  /\ Point.y (positionWindowWithinScreenBoundaries w s) = -50.
Proof.
  intros w s.
  destruct (oversized_window_takes_max_bound w s) as [Hx Hy].
  split.
  - apply Hx. simpl. lia.
  - apply Hy. simpl. lia.
Defined.

(** C1, as stated, fails: a 200-wide window on a 100-wide screen at the
    origin is oversized on the x axis, and the x returned is [-100], not
    the screen's origin [0]. *)
Lemma oversized_window_not_at_origin :
  let w := {| Rectangle.x := 0; Rectangle.y := 0;
              Rectangle.width := 200; Rectangle.height := 100 |} in
  let s := {| Rectangle.x := 0; Rectangle.y := 0;
              Rectangle.width := 100; Rectangle.height := 100 |} in
  Rectangle.width s < Rectangle.width w
  /\ Point.x (positionWindowWithinScreenBoundaries w s) = -100
  /\ Point.x (positionWindowWithinScreenBoundaries w s) <> Rectangle.x s.
Proof.
  intros w s. split; [simpl; lia |]. split; [reflexivity | discriminate].
Qed.

(** C4: a window no larger than the screen on either axis is returned at
    a position where it lies inside the screen. *)
Theorem clamp_containment (windowRectangle screenRectangle : Rectangle.t) :
  Rectangle.width windowRectangle <= Rectangle.width screenRectangle ->
  Rectangle.height windowRectangle <= Rectangle.height screenRectangle ->
  within
    (moveTo (positionWindowWithinScreenBoundaries windowRectangle screenRectangle)
            windowRectangle)
    screenRectangle.
Proof.
  intros Hw Hh. unfold within, moveTo. cbn [Rectangle.x Rectangle.y
    Rectangle.width Rectangle.height].
  rewrite clamp_x, clamp_y. lia.
Qed.

Lemma clamp_containment_witness :
  let w := {| Rectangle.x := 1800; Rectangle.y := -40;
              Rectangle.width := 320; Rectangle.height := 180 |} in
  within (moveTo (positionWindowWithinScreenBoundaries w (Display.workArea fullHD)) w)
         (Display.workArea fullHD).
Proof.
  intros w. apply (clamp_containment w (Display.workArea fullHD)); simpl; lia.
Defined.

(** C8: on a window that already lies inside the screen the clamp returns
    the window's own position. *)
Theorem clamp_identity_when_within (windowRectangle screenRectangle : Rectangle.t) :
  within windowRectangle screenRectangle ->
  positionWindowWithinScreenBoundaries windowRectangle screenRectangle
  = {| Point.x := Rectangle.x windowRectangle;
       Point.y := Rectangle.y windowRectangle |}.
Proof.
  intros (Hx1 & Hx2 & Hy1 & Hy2).
  unfold positionWindowWithinScreenBoundaries, Math.min, Math.max.
  f_equal; lia.
Qed.

Lemma clamp_identity_when_within_witness :
  positionWindowWithinScreenBoundaries
    {| Rectangle.x := 1600; Rectangle.y := 0;
       Rectangle.width := 320; Rectangle.height := 180 |}
    (Display.workArea fullHD)
  = {| Point.x := 1600; Point.y := 0 |}.
Proof.
  apply (clamp_identity_when_within
           {| Rectangle.x := 1600; Rectangle.y := 0;
              Rectangle.width := 320; Rectangle.height := 180 |}
           (Display.workArea fullHD)).
  unfold within; simpl; lia.
Defined.

(** ** Resizing off macOS *)

Ltac run_handler :=
  unfold bind, ret, modify, lift, read; cbn [fst snd].

(** Off macOS the window gets the two custom listeners, and no call is
    made to the toolkit while they are installed. *)
Lemma custom_listeners (env : Env) (aspectRatio : spec_float) (w : World) :
  os_type env <> "Darwin" ->
  setAspectRatioToResizeableWindow env aspectRatio w
  = (Normal {| on_will_resize := Some willResize;
               on_resize := resizeManual aspectRatio |}, w).
Proof.
  intros Hos. unfold setAspectRatioToResizeableWindow.
  rewrite bool_decide_eq_false_2 by exact Hos. reflexivity.
Qed.

(** On macOS the ratio is handed to the toolkit and every resize is
    recorded as it comes. *)
Lemma native_listeners (env : Env) (aspectRatio : spec_float) (w : World) :
  os_type env = "Darwin" ->
  setAspectRatioToResizeableWindow env aspectRatio w
  = (Normal {| on_will_resize := None; on_resize := resizeNative |},
     emit (SetAspectRatio aspectRatio) w).
Proof.
  intros Hos. unfold setAspectRatioToResizeableWindow.
  rewrite bool_decide_eq_true_2 by exact Hos. reflexivity.
Qed.

Lemma willResize_calls (env : Env) (win : BrowserWindow)
    (newBounds : Rectangle.t) (w : World) :
  calls (snd (willResize env win newBounds w))
  = if (Point.x (getMousePos env)
          >=? Rectangle.x newBounds + Rectangle.width newBounds - 16)
       && (Point.y (getMousePos env)
          >=? Rectangle.y newBounds + Rectangle.height newBounds - 16)
    then calls w ++ [PreventDefault]
    else calls w.
Proof.
  unfold willResize. run_handler. cbn [Point.x Point.y].
  destruct (_ && _); reflexivity.
Qed.

Lemma resizeManual_width_axis (aspectRatio : spec_float) (win : BrowserWindow)
    (w : World) (oldWidth oldHeight width height : Z) :
  oldSize w = Some (oldWidth, oldHeight) ->
  win_getSize win = (width, height) ->
  Z.abs (oldHeight - height) <= Z.abs (oldWidth - width) ->
  resizeManual aspectRatio win w
  = (Normal tt,
     resized width
       (Math.round (Number.div (Number.of_Z width) aspectRatio)) w).
Proof.
  intros Hold Hwin Hle. unfold resizeManual. rewrite Hwin. run_handler.
  rewrite Hold. unfold Math.abs.
  destruct (Z.geb_spec (Z.abs (oldWidth - width)) (Z.abs (oldHeight - height)));
    [reflexivity | lia].
Qed.

Lemma resizeManual_height_axis (aspectRatio : spec_float) (win : BrowserWindow)
    (w : World) (oldWidth oldHeight width height : Z) :
  oldSize w = Some (oldWidth, oldHeight) ->
  win_getSize win = (width, height) ->
  Z.abs (oldWidth - width) < Z.abs (oldHeight - height) ->
  resizeManual aspectRatio win w
  = (Normal tt,
     resized (Math.round (Number.mul (Number.of_Z height) aspectRatio))
       height w).
Proof.
  intros Hold Hwin Hlt. unfold resizeManual. rewrite Hwin. run_handler.
  rewrite Hold. unfold Math.abs.
  destruct (Z.geb_spec (Z.abs (oldWidth - width)) (Z.abs (oldHeight - height)));
    [lia | reflexivity].
Qed.

(** Before any ['will-resize'] the ['resize'] listener throws and changes
    nothing. *)
Lemma resizeManual_without_oldSize (aspectRatio : spec_float)
    (win : BrowserWindow) (w : World) :
  oldSize w = None ->
  resizeManual aspectRatio win w = (Throw TypeError, w).
Proof.
  intros Hold. unfold resizeManual. destruct (win_getSize win).
  run_handler. rewrite Hold. reflexivity.
Qed.

(** C5: the ['will-resize'] listener vetoes the step exactly when the
    pointer is at or beyond the new bottom-right corner less 16 pixels on
    both axes; with new bounds [{0, 0, 200, 200}] and the pointer at
    [(190, 190)] the step is vetoed. *)
Theorem will_resize_vetoes_corner_drag :
  (forall (env : Env) (win : BrowserWindow) (newBounds : Rectangle.t) (w : World),
     vetoed w (snd (willResize env win newBounds w))
     <-> (Point.x (getMousePos env)
            >= Rectangle.x newBounds + Rectangle.width newBounds - 16
          /\ Point.y (getMousePos env)
            >= Rectangle.y newBounds + Rectangle.height newBounds - 16))
  /\ (forall (env : Env) (win : BrowserWindow) (w : World),
        getMousePos env = {| Point.x := 190; Point.y := 190 |} ->
        vetoed w
          (snd (willResize env win
                  {| Rectangle.x := 0; Rectangle.y := 0;
                     Rectangle.width := 200; Rectangle.height := 200 |} w))).
Proof.
  assert (Hiff : forall env win newBounds w,
     vetoed w (snd (willResize env win newBounds w))
     <-> (Point.x (getMousePos env)
            >= Rectangle.x newBounds + Rectangle.width newBounds - 16
          /\ Point.y (getMousePos env)
            >= Rectangle.y newBounds + Rectangle.height newBounds - 16)).
  { intros env win newBounds w. unfold vetoed. rewrite willResize_calls.
    destruct (Z.geb_spec (Point.x (getMousePos env))
                (Rectangle.x newBounds + Rectangle.width newBounds - 16));
    destruct (Z.geb_spec (Point.y (getMousePos env))
                (Rectangle.y newBounds + Rectangle.height newBounds - 16));
    cbn [andb]; split; try (intros; split; lia); try reflexivity;
    try (intros Heq; apply (f_equal length) in Heq;
         rewrite length_app in Heq; simpl in Heq; lia);
    intros [? ?]; lia. }
  split; [exact Hiff |].
  intros env win w Hmouse. apply Hiff. rewrite Hmouse. simpl. lia.
Qed.

Lemma will_resize_vetoes_corner_drag_witness :
  let env := desktop "linux" "Linux" {| Point.x := 190; Point.y := 190 |} in
  vetoed (initial env)
    (snd (willResize env {| win_getSize := (320, 180) |}
            {| Rectangle.x := 0; Rectangle.y := 0;
               Rectangle.width := 200; Rectangle.height := 200 |}
            (initial env))).
Proof.
  intros env.
  apply (proj2 will_resize_vetoes_corner_drag env {| win_getSize := (320, 180) |}
           (initial env)).
  reflexivity.
Defined.

(** C3: off macOS, after a step in which the width changed strictly more
    than the height, the width is kept and the height becomes
    [round (width / (16 / 9))]; after a step in which the height changed
    strictly more, the height is kept and the width becomes
    [round (height * (16 / 9))].  That size is passed to [win.setSize] and
    stored in [size]. *)
Theorem resize_follows_dominant_axis (env : Env) (w0 w : World)
    (listeners : Listeners) (win : BrowserWindow)
    (oldWidth oldHeight width height : Z) :
  os_type env <> "Darwin" ->
  fst (setAspectRatioToResizeableWindow env ASPECT_RATIO w0) = Normal listeners ->
  oldSize w = Some (oldWidth, oldHeight) ->
  win_getSize win = (width, height) ->
  (Math.abs (oldWidth - width) > Math.abs (oldHeight - height) ->
     on_resize listeners win w
     = (Normal tt,
        resized width
          (Math.round (Number.div (Number.of_Z width) ASPECT_RATIO)) w))
  /\ (Math.abs (oldHeight - height) > Math.abs (oldWidth - width) ->
     on_resize listeners win w
     = (Normal tt,
        resized (Math.round (Number.mul (Number.of_Z height) ASPECT_RATIO))
          height w)).
Proof.
  intros Hos Hinstall Hold Hwin.
  rewrite custom_listeners in Hinstall by exact Hos.
  injection Hinstall as <-. cbn [on_resize]. unfold Math.abs.
  split; intros Hmore.
  - apply (resizeManual_width_axis _ _ _ oldWidth oldHeight width height); [assumption .. | lia].
  - apply (resizeManual_height_axis _ _ _ oldWidth oldHeight width height); [assumption .. | lia].
Qed.

(** C10: off macOS, a step in which width and height changed by the same
    amount (no change at all included) keeps the width and recomputes the
    height as [round (width / (16 / 9))]; so does every step in which the
    height did not change strictly more than the width. *)
Theorem resize_tie_keeps_width (env : Env) (w0 w : World)
    (listeners : Listeners) (win : BrowserWindow)
    (oldWidth oldHeight width height : Z) :
  os_type env <> "Darwin" ->
  fst (setAspectRatioToResizeableWindow env ASPECT_RATIO w0) = Normal listeners ->
  oldSize w = Some (oldWidth, oldHeight) ->
  win_getSize win = (width, height) ->
  let keptWidth :=
    (Normal tt,
     resized width
       (Math.round (Number.div (Number.of_Z width) ASPECT_RATIO)) w) in
  (Math.abs (oldWidth - width) = Math.abs (oldHeight - height) ->
     on_resize listeners win w = keptWidth)
  /\ (~ Math.abs (oldHeight - height) > Math.abs (oldWidth - width) ->
     on_resize listeners win w = keptWidth).
Proof.
  intros Hos Hinstall Hold Hwin keptWidth. subst keptWidth.
  rewrite custom_listeners in Hinstall by exact Hos.
  injection Hinstall as <-. cbn [on_resize]. unfold Math.abs.
  split; intros Hcmp;
    apply (resizeManual_width_axis _ _ _ oldWidth oldHeight width height);
    solve [assumption | lia].
Qed.

Lemma resize_follows_dominant_axis_witness :
  let env := desktop "linux" "Linux" {| Point.x := 0; Point.y := 0 |} in
  let w := set_oldSize (320, 180) (initial env) in
  resizeManual ASPECT_RATIO {| win_getSize := (400, 180) |} w
  = (Normal tt, resized 400 225 w)
  /\ resizeManual ASPECT_RATIO {| win_getSize := (320, 200) |} w
     = (Normal tt, resized 356 200 w).
Proof.
  intros env w.
  assert (Hos : os_type env <> "Darwin") by discriminate.
  split.
  - apply (proj1 (resize_follows_dominant_axis env (initial env) w
                    {| on_will_resize := Some willResize;
                       on_resize := resizeManual ASPECT_RATIO |}
                    {| win_getSize := (400, 180) |} 320 180 400 180
                    Hos eq_refl eq_refl eq_refl)).
    unfold Math.abs. lia.
  - apply (proj2 (resize_follows_dominant_axis env (initial env) w
                    {| on_will_resize := Some willResize;
                       on_resize := resizeManual ASPECT_RATIO |}
                    {| win_getSize := (320, 200) |} 320 180 320 200
                    Hos eq_refl eq_refl eq_refl)).
    unfold Math.abs. lia.
Defined.

Lemma resize_tie_keeps_width_witness :
  let env := desktop "linux" "Linux" {| Point.x := 0; Point.y := 0 |} in
  let w := set_oldSize (320, 180) (initial env) in
  resizeManual ASPECT_RATIO {| win_getSize := (330, 190) |} w
  = (Normal tt, resized 330 186 w)
  /\ resizeManual ASPECT_RATIO {| win_getSize := (320, 180) |} w
     = (Normal tt, resized 320 180 w).
Proof.
  intros env w.
  assert (Hos : os_type env <> "Darwin") by discriminate.
  split.
  - apply (proj1 (resize_tie_keeps_width env (initial env) w
                    {| on_will_resize := Some willResize;
                       on_resize := resizeManual ASPECT_RATIO |}
                    {| win_getSize := (330, 190) |} 320 180 330 190
                    Hos eq_refl eq_refl eq_refl)).
    reflexivity.
  - apply (proj2 (resize_tie_keeps_width env (initial env) w
                    {| on_will_resize := Some willResize;
                       on_resize := resizeManual ASPECT_RATIO |}
                    {| win_getSize := (320, 180) |} 320 180 320 180
                    Hos eq_refl eq_refl eq_refl)).
    unfold Math.abs. lia.
Defined.

(** ** The IPC listener and the stored position *)

Lemma strict_eq_str_true (v : value) (s : string) :
  strict_eq_str v s = true -> v = VStr s.
Proof.
  destruct v; simpl; try discriminate.
  intros H. apply bool_decide_eq_true_1 in H. congruence.
Qed.

Lemma position_is_not_resetSize (name : value) :
  strict_eq_str name "position" = true ->
  strict_eq_str name "resetSize" = false.
Proof. intros H. apply strict_eq_str_true in H. subst name. reflexivity. Qed.

(** Whoever has a [name] to read has an [x] and a [y] to read. *)
Lemma get_total (data : value) (k k' : string) (v : value) :
  get data k = Normal v -> exists v', get data k' = Normal v'.
Proof. destruct data; simpl; intros H; try discriminate; eauto. Qed.

Section Listener.

Variable env : Env.

(** A message that reports [(x, y)] makes the listener store [{x, y}]
    and nothing else. *)
Lemma listener_stores_report (msg : value) (x y : value) (w : World) :
  reported msg = Some (x, y) ->
  setupAlwaysOnTopMain env msg w
  = (Normal tt, set_position (<["x" := x]> (<["y" := y]> ∅)) w).
Proof.
  unfold reported, setupAlwaysOnTopMain. run_handler.
  destruct (destructure msg) as [[type data] | e]; [| discriminate].
  destruct (strict_eq_str type "event"); [| discriminate].
  destruct (get data "name") as [name | e]; [| discriminate].
  destruct (get data "x") as [x' | e]; [| discriminate].
  destruct (get data "y") as [y' | e]; [| discriminate].
  destruct (strict_eq_str name "position") eqn:Hname; [| discriminate].
  intros [= <- <-]. rewrite (position_is_not_resetSize _ Hname).
  reflexivity.
Qed.

(** Any other message leaves the stored position alone. *)
Lemma listener_keeps_position (msg : value) (w : World) :
  reported msg = None ->
  position (snd (setupAlwaysOnTopMain env msg w)) = position w.
Proof.
  unfold reported, setupAlwaysOnTopMain. run_handler.
  destruct (destructure msg) as [[type data] | e]; [| reflexivity].
  destruct (strict_eq_str type "event"); [| reflexivity].
  destruct (get data "name") as [name | e] eqn:Hget; [| reflexivity].
  destruct (get_total _ _ "x" _ Hget) as [x' ->].
  destruct (get_total _ _ "y" _ Hget) as [y' ->].
  destruct (strict_eq_str name "position"); [discriminate |].
  intros _. destruct (strict_eq_str name "resetSize"); reflexivity.
Qed.

(** A message whose [type] is not ['event'], or whose [data.name] is
    neither ['position'] nor ['resetSize'], changes nothing. *)
Lemma listener_ignores (msg type data : value) (w : World) :
  destructure msg = Normal (type, data) ->
  strict_eq_str type "event" = false
  \/ (exists name, get data "name" = Normal name
                   /\ strict_eq_str name "position" = false
                   /\ strict_eq_str name "resetSize" = false) ->
  setupAlwaysOnTopMain env msg w = (Normal tt, w).
Proof.
  intros Hmsg Hcase. unfold setupAlwaysOnTopMain. run_handler.
  rewrite Hmsg. destruct Hcase as [Htype | (name & Hget & Hpos & Hreset)].
  - rewrite Htype. reflexivity.
  - rewrite Hget, Hpos, Hreset. destruct (strict_eq_str type "event"); reflexivity.
Qed.

(** An ['event'] whose [data] is [null] has no [data.name]: reading it
    throws, and the state is as before. *)
Lemma listener_throws_on_null_data (o : gmap string value) (w : World) :
  prop o "type" = VStr "event" ->
  prop o "data" = VNull ->
  setupAlwaysOnTopMain env (VObj o) w = (Throw TypeError, w).
Proof.
  intros Htype Hdata. unfold setupAlwaysOnTopMain, destructure. run_handler.
  simpl. rewrite Htype, Hdata. reflexivity.
Qed.

(** ['resetSize'] puts the configured size back. *)
Lemma listener_resets_size (msg type data : value) (w : World) :
  destructure msg = Normal (type, data) ->
  strict_eq_str type "event" = true ->
  get data "name" = Normal (VStr "resetSize") ->
  setupAlwaysOnTopMain env msg w = (Normal tt, set_size (SIZE env) w).
Proof.
  intros Hmsg Htype Hget. unfold setupAlwaysOnTopMain. run_handler.
  rewrite Hmsg, Htype, Hget. reflexivity.
Qed.

End Listener.

Lemma reported_position_message (x y : value) :
  reported (position_message x y) = Some (x, y).
Proof. reflexivity. Qed.

Lemma initial_unpopulated (env : Env) : unpopulated (position (initial env)).
Proof. split; reflexivity. Qed.

Lemma numeric_report_step (env : Env) (msg : value) (w : World) :
  numeric_report msg ->
  populated (position w) \/ unpopulated (position w) ->
  populated (position (snd (setupAlwaysOnTopMain env msg w)))
  \/ unpopulated (position (snd (setupAlwaysOnTopMain env msg w))).
Proof.
  intros Hnum Hinv. destruct (reported msg) as [[x y] |] eqn:Hrep.
  - rewrite (listener_stores_report env msg x y w Hrep). cbn [snd].
    destruct (Hnum x y Hrep) as [Hx Hy].
    destruct x; try discriminate. destruct y; try discriminate.
    left. eexists _, _. split; reflexivity.
  - rewrite (listener_keeps_position env msg w Hrep). exact Hinv.
Qed.

Lemma numeric_reports_preserve (env : Env) (msgs : list value) :
  Forall numeric_report msgs ->
  forall w : World,
    populated (position w) \/ unpopulated (position w) ->
    populated (position (deliver env msgs w))
    \/ unpopulated (position (deliver env msgs w)).
Proof.
  induction 1 as [| msg msgs Hmsg _ IH]; intros w Hinv; [exact Hinv |].
  unfold deliver. cbn [fold_left]. apply IH.
  apply numeric_report_step; assumption.
Qed.

(** C2, as the code has it: the listener stores the [x] and [y] of a
    position report as they come.  After any sequence of messages in which
    every position report carries a number for [x] and a number for [y],
    the stored position has both coordinates as numbers or none. *)
Theorem stored_position_all_or_nothing (env : Env) (msgs : list value) :
  Forall numeric_report msgs ->
  populated (position (deliver env msgs (initial env)))
  \/ unpopulated (position (deliver env msgs (initial env))).
Proof.
  intros Hmsgs. apply numeric_reports_preserve; [exact Hmsgs |].
  right. apply initial_unpopulated.
Qed.

Lemma stored_position_all_or_nothing_witness :
  let env := desktop "linux" "Linux" {| Point.x := 0; Point.y := 0 |} in
  let msgs := [VObj {["type" := VStr "ping"]};
               position_message (VNum 50) (VNum 60)] in
  populated (position (deliver env msgs (initial env)))
  \/ unpopulated (position (deliver env msgs (initial env))).
Proof.
  intros env msgs. apply (stored_position_all_or_nothing env msgs).
  constructor; [intros x y; vm_compute; discriminate |].
  constructor; [| constructor].
  intros x y; vm_compute; intros [= <- <-]; split; reflexivity.
Defined.

(** C2, as stated, fails: a position report that carries [x] alone leaves
    the stored position with exactly one numeric coordinate. *)
Lemma stored_position_half_populated :
  let env := desktop "linux" "Linux" {| Point.x := 0; Point.y := 0 |} in
  let msg := VObj (<["type" := VStr "event"]>
                   (<["data" := VObj (<["name" := VStr "position"]>
                                      (<["x" := VNum 5]> ∅))]> ∅)) in
  let p := position (deliver env [msg] (initial env)) in
  prop p "x" = VNum 5 /\ prop p "y" = VUndefined
  /\ ~ (populated p \/ unpopulated p).
Proof.
  intros env msg p. split; [reflexivity |]. split; [reflexivity |].
  intros [(x & y & _ & Hy) | [Hx _]]; discriminate.
Qed.

(** Without two numeric coordinates in store, whatever else is there,
    [getPosition] falls through to the default placement. *)
Lemma getPosition_default (env : Env) (w : World) :
  unpopulated (position w) ->
  getPosition env w
  = let wa := Display.workArea
                (getDisplayNearestPoint env (getCursorScreenPoint env)) in
    {| Point.x := Rectangle.x wa + Rectangle.width wa - Size.width (size w);
       Point.y := Rectangle.y wa |}.
Proof.
  intros [Hx Hy]. unfold getPosition.
  destruct (prop (position w) "x"); try discriminate Hx;
    destruct (prop (position w) "y"); try discriminate Hy; reflexivity.
Qed.

(** On win32 a stored position is clamped into the work area of the
    display that matches the window, when there is one. *)
Lemma getPosition_win32 (env : Env) (w : World) (x y : Z) :
  prop (position w) "x" = VNum x ->
  prop (position w) "y" = VNum y ->
  os_platform env = "win32" ->
  getPosition env w
  = let windowRectangle :=
      {| Rectangle.x := x; Rectangle.y := y;
         Rectangle.width := Size.width (size w);
         Rectangle.height := Size.height (size w) |} in
    match getDisplayMatching env windowRectangle with
    | Some matchingScreen =>
        positionWindowWithinScreenBoundaries
          windowRectangle (Display.workArea matchingScreen)
    | None => {| Point.x := x; Point.y := y |}
    end.
Proof.
  intros Hx Hy Hos. unfold getPosition. rewrite Hx, Hy.
  rewrite bool_decide_eq_true_2 by exact Hos. reflexivity.
Qed.

(** Elsewhere it is returned as it is. *)
Lemma getPosition_elsewhere (env : Env) (w : World) (x y : Z) :
  prop (position w) "x" = VNum x ->
  prop (position w) "y" = VNum y ->
  os_platform env <> "win32" ->
  getPosition env w = {| Point.x := x; Point.y := y |}.
Proof.
  intros Hx Hy Hos. unfold getPosition. rewrite Hx, Hy.
  rewrite bool_decide_eq_false_2 by exact Hos. reflexivity.
Qed.

(** C6: with no stored position the window goes to the top-right corner of
    the work area of the display under the pointer:
    [{x: x + width - size.width, y: y}]; for the work area
    [{0, 0, 1920, 1080}] and the size [{320, 180}] that is [{1600, 0}]. *)
Theorem default_placement_top_right (env : Env) (w : World) :
  position w = ∅ ->
  let wa := Display.workArea
              (getDisplayNearestPoint env (getCursorScreenPoint env)) in
  getPosition env w
  = {| Point.x := Rectangle.x wa + Rectangle.width wa - Size.width (size w);
       Point.y := Rectangle.y wa |}
  /\ Point.x (getPosition env w) + Size.width (size w)
     = Rectangle.x wa + Rectangle.width wa
  /\ (wa = {| Rectangle.x := 0; Rectangle.y := 0;
              Rectangle.width := 1920; Rectangle.height := 1080 |} ->
      size w = {| Size.width := 320; Size.height := 180 |} ->
      getPosition env w = {| Point.x := 1600; Point.y := 0 |}).
Proof.
  intros Hempty wa.
  assert (Hnone : unpopulated (position w))
    by (rewrite Hempty; split; reflexivity).
  rewrite (getPosition_default env w Hnone). cbv zeta. fold wa.
  split; [reflexivity |]. split; [cbn [Point.x]; lia |].
  intros -> ->. reflexivity.
Qed.

Lemma default_placement_top_right_witness :
  let env := desktop "win32" "Windows_NT" {| Point.x := 700; Point.y := 300 |} in
  getPosition env (initial env) = {| Point.x := 1600; Point.y := 0 |}.
Proof.
  intros env.
  destruct (default_placement_top_right env (initial env) eq_refl)
    as (_ & _ & Hexample).
  apply Hexample; reflexivity.
Defined.

(** C7: on a platform other than win32, once the listener has handled
    [{type: 'event', data: {name: 'position', x, y}}] with numbers [x] and
    [y], [getPosition] returns [{x, y}] as stored. *)
Theorem stored_position_returned_unclamped (env : Env) (x y : Z) (w : World) :
  os_platform env <> "win32" ->
  let r := setupAlwaysOnTopMain env (position_message (VNum x) (VNum y)) w in
  fst r = Normal tt
  /\ getPosition env (snd r) = {| Point.x := x; Point.y := y |}.
Proof.
  intros Hos r. subst r.
  rewrite (listener_stores_report env _ (VNum x) (VNum y) w
             (reported_position_message _ _)).
  split; [reflexivity |].
  apply getPosition_elsewhere; [reflexivity | reflexivity | exact Hos].
Qed.

Lemma stored_position_returned_unclamped_witness :
  let env := desktop "linux" "Linux" {| Point.x := 0; Point.y := 0 |} in
  getPosition env
    (snd (setupAlwaysOnTopMain env (position_message (VNum 50) (VNum 60))
            (initial env)))
  = {| Point.x := 50; Point.y := 60 |}.
Proof.
  intros env.
  apply (stored_position_returned_unclamped env 50 60 (initial env)).
  discriminate.
Defined.

(** A message that can be read through, and whose [type] is not
    ['event'] or whose [data.name] is neither ['position'] nor
    ['resetSize'], is handled without an error and leaves the stored
    position and the stored size as they were. *)
Theorem unexpected_message_is_ignored (env : Env) (msg type data : value)
    (w : World) :
  destructure msg = Normal (type, data) ->
  strict_eq_str type "event" = false
  \/ (exists name, get data "name" = Normal name
                   /\ strict_eq_str name "position" = false
                   /\ strict_eq_str name "resetSize" = false) ->
  let r := setupAlwaysOnTopMain env msg w in
  fst r = Normal tt
  /\ position (snd r) = position w
  /\ size (snd r) = size w
  /\ snd r = w.
Proof.
  intros Hmsg Hcase r. subst r.
  rewrite (listener_ignores env msg type data w Hmsg Hcase).
  repeat split.
Qed.

Lemma unexpected_message_is_ignored_witness :
  let env := desktop "linux" "Linux" {| Point.x := 0; Point.y := 0 |} in
  let w := set_size {| Size.width := 640; Size.height := 360 |} (initial env) in
  snd (setupAlwaysOnTopMain env
         (VObj (<["type" := VStr "event"]>
                (<["data" := VObj {["name" := VStr "move"]}]> ∅))) w) = w
  /\ snd (setupAlwaysOnTopMain env
            (VObj (<["type" := VStr "request"]>
                   (<["data" := VObj {["name" := VStr "position"]}]> ∅))) w) = w.
Proof.
  intros env w. split.
  - assert (Hmsg : destructure
                     (VObj (<["type" := VStr "event"]>
                            (<["data" := VObj {["name" := VStr "move"]}]> ∅)))
                   = Normal (VStr "event", VObj {["name" := VStr "move"]}))
      by reflexivity.
    apply (unexpected_message_is_ignored env _ _ _ w Hmsg).
    right. exists (VStr "move"). repeat split.
  - assert (Hmsg : destructure
                     (VObj (<["type" := VStr "request"]>
                            (<["data" := VObj {["name" := VStr "position"]}]> ∅)))
                   = Normal (VStr "request", VObj {["name" := VStr "position"]}))
      by reflexivity.
    apply (unexpected_message_is_ignored env _ _ _ w Hmsg).
    left. reflexivity.
Defined.

(** ** The ratio in binary64

    [16 / 9] is not a double; the quotient is rounded to
    [8006399337547548 * 2^-52], a little below.  On the sizes a window can
    take, dividing or multiplying by it and rounding gives what exact
    rational arithmetic gives: [round (9 w / 16)] and [round (16 h / 9)],
    ties upwards. *)

Lemma ASPECT_RATIO_binary64 :
  ASPECT_RATIO = S754_finite false 8006399337547548 (-52).
Proof. reflexivity. Qed.

Lemma agrees_below_spec (n : Z) (f g : Z -> Z) :
  agrees_below n f g = true ->
  forall z : Z, 0 <= z < n -> f z = g z.
Proof.
  unfold agrees_below. rewrite forallb_forall. intros Hall z Hz.
  apply Z.eqb_eq, Hall, list_elem_of_In, elem_of_seqZ. lia.
Qed.

Lemma height_for_width_exact (width : Z) :
  0 <= width < 8192 ->
  Math.round (Number.div (Number.of_Z width) ASPECT_RATIO)
  = (9 * width + 8) / 16.
Proof.
  apply (agrees_below_spec 8192
           (fun z => Math.round (Number.div (Number.of_Z z) ASPECT_RATIO))
           (fun z => (9 * z + 8) / 16)).
  vm_compute. reflexivity.
Qed.

Lemma width_for_height_exact (height : Z) :
  0 <= height < 8192 ->
  Math.round (Number.mul (Number.of_Z height) ASPECT_RATIO)
  = (32 * height + 9) / 18.
Proof.
  apply (agrees_below_spec 8192
           (fun z => Math.round (Number.mul (Number.of_Z z) ASPECT_RATIO))
           (fun z => (32 * z + 9) / 18)).
  vm_compute. reflexivity.
Qed.

(** * Further properties *)

(** ** More on clamping *)

(** X1: clamping is idempotent: the window moved to the clamped position
    is clamped to that same position, whatever the sizes of window and
    screen. *)
Theorem clamp_idempotent (windowRectangle screenRectangle : Rectangle.t) :
  positionWindowWithinScreenBoundaries
    (moveTo (positionWindowWithinScreenBoundaries windowRectangle screenRectangle)
            windowRectangle)
    screenRectangle
  = positionWindowWithinScreenBoundaries windowRectangle screenRectangle.
Proof.
  unfold positionWindowWithinScreenBoundaries, moveTo, Math.min, Math.max.
  cbn [Rectangle.x Rectangle.y Rectangle.width Rectangle.height Point.x Point.y].
  f_equal; lia.
Qed.

(** X2: whatever the sizes, the clamped window never reaches past the
    right or the bottom edge of the screen, and it starts before the left
    or the top edge only when it is larger than the screen on that axis. *)
Theorem clamp_respects_far_edges (windowRectangle screenRectangle : Rectangle.t) :
  let p := positionWindowWithinScreenBoundaries windowRectangle screenRectangle in
  Point.x p + Rectangle.width windowRectangle
    <= Rectangle.x screenRectangle + Rectangle.width screenRectangle
  /\ Point.y p + Rectangle.height windowRectangle
    <= Rectangle.y screenRectangle + Rectangle.height screenRectangle
  /\ (Point.x p < Rectangle.x screenRectangle ->
      Rectangle.width screenRectangle < Rectangle.width windowRectangle)
  /\ (Point.y p < Rectangle.y screenRectangle ->
      Rectangle.height screenRectangle < Rectangle.height windowRectangle).
Proof.
  intros p. subst p. rewrite clamp_x, clamp_y. lia.
Qed.

Lemma clamp_respects_far_edges_witness :
  let w := {| Rectangle.x := -30; Rectangle.y := 5;
              Rectangle.width := 200; Rectangle.height := 100 |} in
  let s := {| Rectangle.x := 0; Rectangle.y := 0;
              Rectangle.width := 100; Rectangle.height := 100 |} in
  Point.x (positionWindowWithinScreenBoundaries w s) + 200 <= 100
  /\ Rectangle.width s < Rectangle.width w.
Proof.
  intros w s.
  destruct (clamp_respects_far_edges w s) as (Hx & _ & Hleft & _).
  split; [exact Hx |]. apply Hleft. vm_compute. reflexivity.
Defined.

(** ** More on placement *)

Lemma topRight_unless_populated (env : Env) (w : World) :
  ~ populated (position w) -> getPosition env w = topRight env w.
Proof.
  intros Hnot. unfold getPosition, topRight.
  destruct (prop (position w) "x") eqn:Hx; try reflexivity.
  destruct (prop (position w) "y") eqn:Hy; try reflexivity.
  exfalso. apply Hnot. eexists _, _. split; [exact Hx | exact Hy].
Qed.

(** X3: [getPosition] uses the stored position only when both of its
    coordinates are numbers; a position with one coordinate, or with
    coordinates that are no numbers, gives the top-right placement, as
    an empty one does. *)
Theorem half_stored_position_is_not_used (env : Env) (w : World) (x y : value) :
  position w = <["x" := x]> (<["y" := y]> ∅) ->
  typeof_number x = false \/ typeof_number y = false ->
  getPosition env w = topRight env w.
Proof.
  intros Hpos Hbad. apply topRight_unless_populated.
  intros (px & py & Hx & Hy). rewrite Hpos in Hx, Hy.
  change (prop (<["x":=x]> (<["y":=y]> ∅)) "x") with x in Hx.
  change (prop (<["x":=x]> (<["y":=y]> ∅)) "y") with y in Hy.
  subst x y. destruct Hbad; discriminate.
Qed.

Lemma half_stored_position_is_not_used_witness :
  let env := desktop "linux" "Linux" {| Point.x := 0; Point.y := 0 |} in
  getPosition env
    (set_position (<["x" := VNum 5]> (<["y" := VUndefined]> ∅)) (initial env))
  = {| Point.x := 1600; Point.y := 0 |}.
Proof.
  intros env.
  apply (half_stored_position_is_not_used env
           (set_position (<["x" := VNum 5]> (<["y" := VUndefined]> ∅))
              (initial env))
           (VNum 5) VUndefined eq_refl).
  right. reflexivity.
Defined.

(** X4: on win32, once a position has been reported, a window that is no
    larger than the work area of the display matching it is placed inside
    that work area, wherever the report put it. *)
Theorem win32_placement_inside_work_area (env : Env) (w : World) (x y : Z)
    (matchingScreen : Display.t) :
  os_platform env = "win32" ->
  let w' := snd (setupAlwaysOnTopMain env
                   (position_message (VNum x) (VNum y)) w) in
  let windowRectangle :=
    {| Rectangle.x := x; Rectangle.y := y;
       Rectangle.width := Size.width (getSize env w');
       Rectangle.height := Size.height (getSize env w') |} in
  getDisplayMatching env windowRectangle = Some matchingScreen ->
  Rectangle.width windowRectangle
    <= Rectangle.width (Display.workArea matchingScreen) ->
  Rectangle.height windowRectangle
    <= Rectangle.height (Display.workArea matchingScreen) ->
  within (moveTo (getPosition env w') windowRectangle)
         (Display.workArea matchingScreen).
Proof.
  intros Hos w' windowRectangle Hmatch Hwidth Hheight.
  assert (Hw' : w' = set_position (<["x" := VNum x]> (<["y" := VNum y]> ∅)) w).
  { subst w'. rewrite (listener_stores_report env _ (VNum x) (VNum y) w
                         (reported_position_message _ _)). reflexivity. }
  rewrite (getPosition_win32 env w' x y);
    [| rewrite Hw'; reflexivity | rewrite Hw'; reflexivity | exact Hos].
  cbv zeta. fold windowRectangle in Hmatch |- *.
  unfold getSize in windowRectangle. fold windowRectangle. rewrite Hmatch.
  apply clamp_containment; assumption.
Qed.

Lemma win32_placement_inside_work_area_witness :
  let env := desktop "win32" "Windows_NT" {| Point.x := 0; Point.y := 0 |} in
  let w' := snd (setupAlwaysOnTopMain env
                   (position_message (VNum 5000) (VNum (-40))) (initial env)) in
  getPosition env w' = {| Point.x := 1600; Point.y := 0 |}
  /\ within (moveTo (getPosition env w')
               {| Rectangle.x := 5000; Rectangle.y := -40;
                  Rectangle.width := 320; Rectangle.height := 180 |})
            (Display.workArea fullHD).
Proof.
  intros env w'. split; [reflexivity |].
  apply (win32_placement_inside_work_area env (initial env) 5000 (-40) fullHD).
  - reflexivity.
  - reflexivity.
  - vm_compute. discriminate.
  - vm_compute. discriminate.
Defined.

(** ** More on the IPC listener *)

(** The listener, case by case. *)
Lemma listener_outcome (env : Env) (msg : value) (w : World) :
  setupAlwaysOnTopMain env msg w
  = match reported msg with
    | Some (x, y) =>
        (Normal tt, set_position (<["x" := x]> (<["y" := y]> ∅)) w)
    | None =>
        match destructure msg with
        | Throw e => (Throw e, w)
        | Normal (type, data) =>
            if strict_eq_str type "event" then
              match get data "name" with
              | Throw e => (Throw e, w)
              | Normal name =>
                  if strict_eq_str name "resetSize"
                  then (Normal tt, set_size (SIZE env) w)
                  else (Normal tt, w)
              end
            else (Normal tt, w)
        end
    end.
Proof.
  destruct (reported msg) as [[x y] |] eqn:Hrep.
  - apply listener_stores_report, Hrep.
  - revert Hrep. unfold reported, setupAlwaysOnTopMain. run_handler.
    destruct (destructure msg) as [[type data] | e]; [| reflexivity].
    destruct (strict_eq_str type "event"); [| reflexivity].
    destruct (get data "name") as [name | e] eqn:Hget; [| reflexivity].
    destruct (get_total _ _ "x" _ Hget) as [x' ->].
    destruct (get_total _ _ "y" _ Hget) as [y' ->].
    destruct (strict_eq_str name "position"); [discriminate |].
    intros _. destruct (strict_eq_str name "resetSize"); reflexivity.
Qed.

Lemma listener_position (env : Env) (msg : value) (w : World) :
  position (snd (setupAlwaysOnTopMain env msg w))
  = match reported msg with
    | Some (x, y) => <["x" := x]> (<["y" := y]> ∅)
    | None => position w
    end.
Proof.
  destruct (reported msg) as [[x y] |] eqn:Hrep.
  - rewrite (listener_stores_report env msg x y w Hrep). reflexivity.
  - apply listener_keeps_position, Hrep.
Qed.

(** X5: a ['resetSize'] event puts the configured size back, whatever
    size the resizes had left, so that [getSize] answers [SIZE]; the
    stored position stays. *)
Theorem reset_restores_configured_size (env : Env) (msg type data : value)
    (w : World) :
  destructure msg = Normal (type, data) ->
  strict_eq_str type "event" = true ->
  get data "name" = Normal (VStr "resetSize") ->
  let r := setupAlwaysOnTopMain env msg w in
  fst r = Normal tt
  /\ getSize env (snd r) = SIZE env
  /\ position (snd r) = position w.
Proof.
  intros Hmsg Htype Hname r. subst r.
  rewrite (listener_resets_size env msg type data w Hmsg Htype Hname).
  repeat split.
Qed.

Lemma reset_restores_configured_size_witness :
  let env := desktop "linux" "Linux" {| Point.x := 0; Point.y := 0 |} in
  let w := set_size {| Size.width := 640; Size.height := 360 |} (initial env) in
  getSize env (snd (setupAlwaysOnTopMain env resetSize_message w))
  = {| Size.width := 320; Size.height := 180 |}.
Proof.
  intros env w.
  assert (Hmsg : destructure resetSize_message
                 = Normal (VStr "event",
                           VObj (<["name" := VStr "resetSize"]> ∅)))
    by reflexivity.
  apply (reset_restores_configured_size env _ _ _ w Hmsg); reflexivity.
Defined.

(** X6: whatever the message, the listener makes no call to the toolkit
    and leaves [oldSize] alone; the size stays or becomes [SIZE]; the
    position stays or becomes the reported one; and no message changes
    both the position and the size. *)
Theorem listener_footprint (env : Env) (msg : value) (w : World) :
  let w' := snd (setupAlwaysOnTopMain env msg w) in
  calls w' = calls w
  /\ oldSize w' = oldSize w
  /\ (size w' = size w \/ size w' = SIZE env)
  /\ (position w' = position w
      \/ exists x y, reported msg = Some (x, y)
                     /\ position w' = <["x" := x]> (<["y" := y]> ∅))
  /\ (position w' = position w \/ size w' = size w).
Proof.
  intros w'. subst w'. rewrite listener_outcome.
  destruct (reported msg) as [[x y] |].
  - cbn. repeat split; eauto.
  - destruct (destructure msg) as [[type data] | e]; [| cbn; repeat split; eauto].
    destruct (strict_eq_str type "event"); [| cbn; repeat split; eauto].
    destruct (get data "name") as [name | e]; [| cbn; repeat split; eauto].
    destruct (strict_eq_str name "resetSize"); cbn; repeat split; eauto.
Qed.

(** X7: the listener throws exactly on a message that is [undefined] or
    [null] and on an ['event'] whose [data] is [null]; what it throws is
    a [TypeError], and the state is then as it was. *)
Theorem listener_throws_exactly_when (env : Env) (msg : value) (w : World) :
  let r := setupAlwaysOnTopMain env msg w in
  (fst r = Throw TypeError
   <-> msg = VUndefined \/ msg = VNull
       \/ exists o, msg = VObj o /\ prop o "type" = VStr "event"
                    /\ prop o "data" = VNull)
  /\ (fst r = Normal tt \/ fst r = Throw TypeError /\ snd r = w).
Proof.
  intros r. subst r. rewrite listener_outcome.
  destruct (reported msg) as [[x y] |] eqn:Hrep.
  - cbn [fst snd]. split; [| left; reflexivity]. split; [discriminate |].
    revert Hrep. unfold reported, destructure.
    intros Hrep [-> | [-> | (o & -> & Htype & Hdata)]];
      try discriminate Hrep.
    simpl in Hrep. rewrite Htype, Hdata in Hrep. discriminate Hrep.
  - clear Hrep. destruct msg as [| | b | n | s | o];
      try (cbn; split; [| right; split; reflexivity];
           split; [intros _; tauto | reflexivity]);
      try (cbn; split; [| left; reflexivity];
           split; [discriminate |];
           intros [H | [H | (o & H & _)]]; discriminate H).
    unfold destructure, get. fold (get (VObj o) "type").
    cbn [get].
    assert (Hiff : forall P : Prop,
              (P <-> prop o "type" = VStr "event" /\ prop o "data" = VNull) ->
              (P <-> VObj o = VUndefined \/ VObj o = VNull
                     \/ exists o', VObj o = VObj o'
                                   /\ prop o' "type" = VStr "event"
                                   /\ prop o' "data" = VNull)).
    { intros P HP. rewrite HP. split.
      - intros [? ?]. right. right. exists o. auto.
      - intros [H | [H | (o' & [= <-] & ? & ?)]]; try discriminate H. auto. }
    destruct (strict_eq_str (prop o "type") "event") eqn:Htype.
    + apply strict_eq_str_true in Htype.
      destruct (prop o "data") as [| | b | n | s | o2] eqn:Hdata; cbn;
        try (split; [| left; reflexivity]; apply Hiff;
             split; [discriminate | intros [_ H]; discriminate H]);
        try (destruct (strict_eq_str _ "resetSize"); cbn;
             split; try (left; reflexivity); apply Hiff;
             split; try discriminate; intros [_ H]; discriminate H).
      split; [| right; split; reflexivity]. apply Hiff. tauto.
    + assert (Hne : prop o "type" <> VStr "event").
      { intros Heq. rewrite Heq in Htype. discriminate Htype. }
      destruct (prop o "data"); cbn;
        (split; [| left; reflexivity]); apply Hiff;
        (split; [discriminate | intros [H _]; contradiction]).
Qed.

(** ** More on resizing *)

Lemma resizeManual_outcome (aspectRatio : spec_float) (win : BrowserWindow)
    (w : World) (oldWidth oldHeight width height : Z) :
  oldSize w = Some (oldWidth, oldHeight) ->
  win_getSize win = (width, height) ->
  resizeManual aspectRatio win w
  = (Normal tt,
     if Z.abs (oldWidth - width) >=? Z.abs (oldHeight - height)
     then resized width
            (Math.round (Number.div (Number.of_Z width) aspectRatio)) w
     else resized
            (Math.round (Number.mul (Number.of_Z height) aspectRatio))
            height w).
Proof.
  intros Hold Hwin.
  destruct (Z.geb_spec (Z.abs (oldWidth - width)) (Z.abs (oldHeight - height))).
  - apply (resizeManual_width_axis _ _ _ oldWidth oldHeight width height);
      [assumption .. | lia].
  - apply (resizeManual_height_axis _ _ _ oldWidth oldHeight width height);
      [assumption .. | lia].
Qed.

Lemma willResize_state (env : Env) (win : BrowserWindow)
    (newBounds : Rectangle.t) (w : World) :
  let w' := snd (willResize env win newBounds w) in
  position w' = position w /\ size w' = size w
  /\ oldSize w' = Some (win_getSize win).
Proof.
  unfold willResize. run_handler. destruct (_ && _); repeat split.
Qed.

(** The size the custom listener stores, in integers, for sizes below
    8192. *)
Lemma resizeManual_size (win : BrowserWindow) (w : World)
    (oldWidth oldHeight width height : Z) :
  oldSize w = Some (oldWidth, oldHeight) ->
  win_getSize win = (width, height) ->
  0 <= width < 8192 -> 0 <= height < 8192 ->
  size (snd (resizeManual ASPECT_RATIO win w))
  = if Z.abs (oldWidth - width) >=? Z.abs (oldHeight - height)
    then {| Size.width := width; Size.height := (9 * width + 8) / 16 |}
    else {| Size.width := (32 * height + 9) / 18; Size.height := height |}.
Proof.
  intros Hold Hwin Hwidth Hheight.
  rewrite (resizeManual_outcome _ _ _ _ _ _ _ Hold Hwin).
  rewrite (height_for_width_exact width Hwidth).
  rewrite (width_for_height_exact height Hheight).
  destruct (_ >=? _); reflexivity.
Qed.

Lemma near_ratio_from_width (width : Z) :
  near_ratio {| Size.width := width; Size.height := (9 * width + 8) / 16 |}.
Proof.
  unfold near_ratio. cbn [Size.width Size.height].
  pose proof (Z.div_mod (9 * width + 8) 16 ltac:(lia)) as Hdiv.
  pose proof (Z.mod_pos_bound (9 * width + 8) 16 ltac:(lia)) as Hmod. lia.
Qed.

Lemma near_ratio_from_height (height : Z) :
  near_ratio {| Size.width := (32 * height + 9) / 18; Size.height := height |}.
Proof.
  unfold near_ratio. cbn [Size.width Size.height].
  pose proof (Z.div_mod (32 * height + 9) 18 ltac:(lia)) as Hdiv.
  pose proof (Z.mod_pos_bound (32 * height + 9) 18 ltac:(lia)) as Hmod. lia.
Qed.

(** Rounding [16 h / 9] and then [9 w / 16] gives [h] back. *)
Lemma height_from_width_from_height (height : Z) :
  (9 * ((32 * height + 9) / 18) + 8) / 16 = height.
Proof.
  pose proof (Z.div_mod (32 * height + 9) 18 ltac:(lia)) as Hdiv.
  pose proof (Z.mod_pos_bound (32 * height + 9) 18 ltac:(lia)) as Hmod.
  symmetry. apply (Z.div_unique _ 16 height
                     (9 * ((32 * height + 9) / 18) + 8 - 16 * height)); lia.
Qed.

(** X8: on macOS the ratio is handed to the toolkit once, no
    ['will-resize'] listener is installed, and the ['resize'] listener
    stores the size the toolkit reports, asks nothing of the toolkit and
    does not depend on [oldSize]. *)
Theorem native_resize_records_reported_size (env : Env)
    (aspectRatio : spec_float) (w0 : World) :
  os_type env = "Darwin" ->
  exists listeners,
    setAspectRatioToResizeableWindow env aspectRatio w0
    = (Normal listeners, emit (SetAspectRatio aspectRatio) w0)
    /\ on_will_resize listeners = None
    /\ forall (win : BrowserWindow) (w : World),
         on_resize listeners win w
         = (Normal tt,
            set_size {| Size.width := fst (win_getSize win);
                        Size.height := snd (win_getSize win) |} w).
Proof.
  intros Hos. eexists. split; [apply native_listeners, Hos |].
  split; [reflexivity |]. intros win w. cbn [on_resize].
  unfold resizeNative. destruct (win_getSize win). reflexivity.
Qed.

Lemma native_resize_records_reported_size_witness :
  let env := desktop "darwin" "Darwin" {| Point.x := 0; Point.y := 0 |} in
  exists listeners,
    fst (setAspectRatioToResizeableWindow env ASPECT_RATIO (initial env))
    = Normal listeners
    /\ size (snd (on_resize listeners {| win_getSize := (333, 222) |}
                    (initial env)))
       = {| Size.width := 333; Size.height := 222 |}.
Proof.
  intros env.
  destruct (native_resize_records_reported_size env ASPECT_RATIO (initial env)
              eq_refl) as (listeners & Hinstall & _ & Hresize).
  exists listeners. split.
  - rewrite Hinstall. reflexivity.
  - rewrite Hresize. reflexivity.
Defined.

(** X9: a ['resize'] that follows a ['will-resize'] never throws, vetoed
    or not: the size is corrected against the size the toolkit reported
    at the ['will-resize'], whatever [oldSize] held before. *)
Theorem resize_after_will_resize (env : Env) (before after : BrowserWindow)
    (newBounds : Rectangle.t) (w : World) :
  let w1 := snd (willResize env before newBounds w) in
  let '(oldWidth, oldHeight) := win_getSize before in
  let '(width, height) := win_getSize after in
  resizeManual ASPECT_RATIO after w1
  = (Normal tt,
     if Math.abs (oldWidth - width) >=? Math.abs (oldHeight - height)
     then resized width
            (Math.round (Number.div (Number.of_Z width) ASPECT_RATIO)) w1
     else resized
            (Math.round (Number.mul (Number.of_Z height) ASPECT_RATIO))
            height w1).
Proof.
  intros w1.
  destruct (win_getSize before) as [oldWidth oldHeight] eqn:Hbefore.
  destruct (win_getSize after) as [width height] eqn:Hafter.
  apply resizeManual_outcome; [| exact Hafter].
  subst w1. rewrite <- Hbefore. apply willResize_state.
Qed.

(** X10: for reported sizes below 8192 the binary64 computation is exact:
    the stored size is [(w, round (9 w / 16))] when the width is kept and
    [(round (16 h / 9), h)] when the height is kept, ties upwards, in
    integer arithmetic. *)
Theorem resize_stores_exact_rounding (win : BrowserWindow) (w : World)
    (oldWidth oldHeight width height : Z) :
  oldSize w = Some (oldWidth, oldHeight) ->
  win_getSize win = (width, height) ->
  0 <= width < 8192 -> 0 <= height < 8192 ->
  let r := resizeManual ASPECT_RATIO win w in
  fst r = Normal tt
  /\ size (snd r)
     = if Math.abs (oldWidth - width) >=? Math.abs (oldHeight - height)
       then {| Size.width := width; Size.height := (9 * width + 8) / 16 |}
       else {| Size.width := (32 * height + 9) / 18; Size.height := height |}.
Proof.
  intros Hold Hwin Hwidth Hheight r. subst r. split.
  - rewrite (resizeManual_outcome _ _ _ _ _ _ _ Hold Hwin). reflexivity.
  - apply resizeManual_size; assumption.
Qed.

Lemma resize_stores_exact_rounding_witness :
  let env := desktop "linux" "Linux" {| Point.x := 0; Point.y := 0 |} in
  let w := set_oldSize (320, 180) (initial env) in
  size (snd (resizeManual ASPECT_RATIO {| win_getSize := (328, 181) |} w))
  = {| Size.width := 328; Size.height := 185 |}.
Proof.
  intros env w.
  apply (resize_stores_exact_rounding {| win_getSize := (328, 181) |} w
           320 180 328 181 eq_refl eq_refl); lia.
Defined.

(** X11: after a ['resize'] with a reported size below 8192 the stored
    size is 16:9 up to the rounding of one side: [|9 w - 16 h| <= 8]. *)
Theorem resize_stores_near_ratio (win : BrowserWindow) (w : World)
    (oldWidth oldHeight width height : Z) :
  oldSize w = Some (oldWidth, oldHeight) ->
  win_getSize win = (width, height) ->
  0 <= width < 8192 -> 0 <= height < 8192 ->
  near_ratio (size (snd (resizeManual ASPECT_RATIO win w))).
Proof.
  intros Hold Hwin Hwidth Hheight.
  rewrite (resizeManual_size win w _ _ _ _ Hold Hwin Hwidth Hheight).
  destruct (_ >=? _);
    [apply near_ratio_from_width | apply near_ratio_from_height].
Qed.

Lemma resize_stores_near_ratio_witness :
  let env := desktop "linux" "Linux" {| Point.x := 0; Point.y := 0 |} in
  let w := set_oldSize (320, 180) (initial env) in
  near_ratio (size (snd (resizeManual ASPECT_RATIO
                           {| win_getSize := (321, 400) |} w))).
Proof.
  intros env w.
  apply (resize_stores_near_ratio {| win_getSize := (321, 400) |} w
           320 180 321 400 eq_refl eq_refl); lia.
Defined.

(** X12: a corrected size is stable: when the toolkit has taken the
    corrected size and a further ['will-resize'] and ['resize'] report it
    unchanged, the listener stores that same size again (reported sizes
    below 4096). *)
Theorem corrected_size_is_stable (env : Env) (win : BrowserWindow) (w : World)
    (oldWidth oldHeight width height : Z) (newBounds : Rectangle.t) :
  oldSize w = Some (oldWidth, oldHeight) ->
  win_getSize win = (width, height) ->
  0 <= width < 4096 -> 0 <= height < 4096 ->
  let w1 := snd (resizeManual ASPECT_RATIO win w) in
  let settled :=
    {| win_getSize := (Size.width (size w1), Size.height (size w1)) |} in
  let w2 := snd (willResize env settled newBounds w1) in
  let r := resizeManual ASPECT_RATIO settled w2 in
  fst r = Normal tt /\ size (snd r) = size w1.
Proof.
  intros Hold Hwin Hwidth Hheight w1 settled w2 r.
  destruct (willResize_state env settled newBounds w1) as (_ & _ & Hold2).
  fold w2 in Hold2. cbn [win_getSize settled] in Hold2.
  assert (Hsize : size w1
                  = if Z.abs (oldWidth - width) >=? Z.abs (oldHeight - height)
                    then {| Size.width := width;
                            Size.height := (9 * width + 8) / 16 |}
                    else {| Size.width := (32 * height + 9) / 18;
                            Size.height := height |}).
  { subst w1. apply resizeManual_size; assumption || lia. }
  assert (Hrange : 0 <= Size.width (size w1) < 8192
                   /\ 0 <= Size.height (size w1) < 8192
                   /\ (9 * Size.width (size w1) + 8) / 16
                      = Size.height (size w1)).
  { rewrite Hsize. destruct (_ >=? _); cbn [Size.width Size.height].
    - pose proof (Z.div_mod (9 * width + 8) 16 ltac:(lia)).
      pose proof (Z.mod_pos_bound (9 * width + 8) 16 ltac:(lia)). lia.
    - pose proof (Z.div_mod (32 * height + 9) 18 ltac:(lia)).
      pose proof (Z.mod_pos_bound (32 * height + 9) 18 ltac:(lia)).
      split; [lia |]. split; [lia |]. apply height_from_width_from_height. }
  destruct Hrange as (Hw1 & Hh1 & Hfix).
  subst r. split.
  - rewrite (resizeManual_outcome _ settled w2 _ _ _ _ Hold2 eq_refl).
    reflexivity.
  - rewrite (resizeManual_size settled w2 _ _ _ _ Hold2 eq_refl Hw1 Hh1).
    rewrite Z.sub_diag, Z.sub_diag. cbn [Z.abs Z.geb Z.compare].
    rewrite Hfix. destruct (size w1). reflexivity.
Qed.

Lemma corrected_size_is_stable_witness :
  let env := desktop "linux" "Linux" {| Point.x := 0; Point.y := 0 |} in
  let w := set_oldSize (320, 180) (initial env) in
  let w1 := snd (resizeManual ASPECT_RATIO {| win_getSize := (322, 200) |} w) in
  let settled := {| win_getSize := (356, 200) |} in
  size w1 = {| Size.width := 356; Size.height := 200 |}
  /\ size (snd (resizeManual ASPECT_RATIO settled
                  (snd (willResize env settled
                          {| Rectangle.x := 0; Rectangle.y := 0;
                             Rectangle.width := 356; Rectangle.height := 200 |}
                          w1))))
     = {| Size.width := 356; Size.height := 200 |}.
Proof.
  intros env w w1 settled. split; [reflexivity |].
  apply (corrected_size_is_stable env {| win_getSize := (322, 200) |} w
           320 180 322 200
           {| Rectangle.x := 0; Rectangle.y := 0;
              Rectangle.width := 356; Rectangle.height := 200 |}
           eq_refl eq_refl); lia.
Defined.

(** ** Sessions *)

Lemma listener_frame (env : Env) (msg : value) (w : World) :
  let w' := snd (setupAlwaysOnTopMain env msg w) in
  calls w' = calls w /\ oldSize w' = oldSize w
  /\ (size w' = size w \/ size w' = SIZE env).
Proof.
  intros w'. subst w'. rewrite listener_outcome.
  destruct (reported msg) as [[x y] |]; [cbn; auto |].
  destruct (destructure msg) as [[type data] | e]; [| cbn; auto].
  destruct (strict_eq_str type "event"); [| cbn; auto].
  destruct (get data "name") as [name | e]; [| cbn; auto].
  destruct (strict_eq_str name "resetSize"); cbn; auto.
Qed.

Lemma resizeManual_position (aspectRatio : spec_float) (win : BrowserWindow)
    (w : World) :
  position (snd (resizeManual aspectRatio win w)) = position w.
Proof.
  destruct (oldSize w) as [[oldWidth oldHeight] |] eqn:Hold.
  - destruct (win_getSize win) as [width height] eqn:Hwin.
    rewrite (resizeManual_outcome _ _ _ _ _ _ _ Hold Hwin).
    destruct (_ >=? _); reflexivity.
  - rewrite (resizeManual_without_oldSize _ _ _ Hold). reflexivity.
Qed.

Section Sessions.

Variable env : Env.

(** The ratio is an invariant of the events. *)
Lemma handle_keeps_ratio (w0 w : World) (e : event) :
  ordinary e ->
  size w = size w0 \/ size w = SIZE env \/ near_ratio (size w) ->
  size (handle env w e) = size w0 \/ size (handle env w e) = SIZE env
  \/ near_ratio (size (handle env w e)).
Proof.
  intros Hord Hinv. destruct e as [msg | mouse current newBounds | [width height]];
    cbn [handle].
  - destruct (listener_frame env msg w) as (_ & _ & [-> | ->]); auto.
  - destruct (willResize_state (with_mouse env mouse)
                {| win_getSize := current |} newBounds w) as (_ & -> & _).
    exact Hinv.
  - destruct (oldSize w) as [[oldWidth oldHeight] |] eqn:Hold.
    + right. right. destruct Hord as [Hwidth Hheight].
      rewrite (resizeManual_size {| win_getSize := (width, height) |} w
                 oldWidth oldHeight width height Hold eq_refl);
        [| lia | lia].
      destruct (_ >=? _);
        [apply near_ratio_from_width | apply near_ratio_from_height].
    + rewrite (resizeManual_without_oldSize _ _ _ Hold). exact Hinv.
Qed.

End Sessions.

(** X13: through any sequence of messages, ['will-resize'] and
    ['resize'] events whose reported sizes are below 4096, the stored size
    is the one the sequence started with, the configured [SIZE], or 16:9
    up to rounding. *)
Theorem session_keeps_ratio (env : Env) (events : list event) (w : World) :
  Forall ordinary events ->
  let w' := session env events w in
  size w' = size w \/ size w' = SIZE env \/ near_ratio (size w').
Proof.
  intros Hord w'. subst w'.
  assert (Hgen : forall w1,
            size w1 = size w \/ size w1 = SIZE env \/ near_ratio (size w1) ->
            size (session env events w1) = size w
            \/ size (session env events w1) = SIZE env
            \/ near_ratio (size (session env events w1))).
  { induction Hord as [| e events He _ IH]; intros w1 Hinv; [exact Hinv |].
    unfold session. cbn [fold_left]. apply IH.
    apply handle_keeps_ratio; assumption. }
  apply Hgen. left. reflexivity.
Qed.

Lemma session_keeps_ratio_witness :
  let env := desktop "win32" "Windows_NT" {| Point.x := 0; Point.y := 0 |} in
  let events :=
    [WillResize {| Point.x := 10; Point.y := 10 |} (320, 180)
       {| Rectangle.x := 0; Rectangle.y := 0;
          Rectangle.width := 400; Rectangle.height := 180 |};
     Resize (400, 180)] in
  size (session env events (initial env))
  = {| Size.width := 400; Size.height := 225 |}
  /\ (size (session env events (initial env)) = size (initial env)
      \/ size (session env events (initial env)) = SIZE env
      \/ near_ratio (size (session env events (initial env)))).
Proof.
  intros env events. split; [reflexivity |].
  apply (session_keeps_ratio env events (initial env)).
  repeat constructor; lia.
Defined.

(** X14: resize events never touch the stored position: after any
    sequence of events it is what the messages of the sequence alone
    would have left. *)
Theorem session_position_from_messages (env : Env) (events : list event)
    (w : World) :
  position (session env events w)
  = position (deliver env (omap message_of events) w).
Proof.
  assert (Hgen : forall w1 w2,
            position w1 = position w2 ->
            position (session env events w1)
            = position (deliver env (omap message_of events) w2)).
  { induction events as [| e events IH]; intros w1 w2 Hpos; [exact Hpos |].
    unfold session, deliver. cbn [fold_left omap list_omap].
    destruct e as [msg | mouse current newBounds | current];
      cbn [message_of handle fold_left].
    - apply IH. rewrite !listener_position, Hpos. reflexivity.
    - apply IH.
      destruct (willResize_state (with_mouse env mouse)
                  {| win_getSize := current |} newBounds w1) as (-> & _).
      exact Hpos.
    - apply IH. rewrite resizeManual_position. exact Hpos. }
  apply Hgen. reflexivity.
Qed.



(** ** Window creation *)

Lemma onAlwaysOnTopWindow_outcome (env : Env) (id : Z)
    (options : gmap string value) (w : World) :
  exists (listeners : Listeners) (w' : World),
    onAlwaysOnTopWindow env id "AlwaysOnTop" options w
    = (Normal
         (Some {| nw_options :=
                    size_object (size w)
                    ∪ (point_object (getPosition env w)
                       ∪ (windowOptions env ∪ options));
                  nw_listeners := listeners;
                  nw_readyToShow := fun isDestroyed => negb isDestroyed;
                  nw_sent :=
                    VObj (<["type" := VStr "event"]>
                          (<["data" := VObj (<["id" := VNum id]>
                                             (<["name" := VStr "new-window"]> ∅))]>
                           ∅)) |}), w')
    /\ position w' = position w /\ size w' = size w
    /\ oldSize w' = oldSize w
    /\ calls w'
       = calls w ++ PreventDefault
                    :: (if bool_decide (os_type env = "Darwin")
                        then [SetAspectRatio ASPECT_RATIO] else []).
Proof.
  unfold onAlwaysOnTopWindow, setAspectRatioToResizeableWindow.
  rewrite bool_decide_eq_true_2 by reflexivity. run_handler.
  destruct (bool_decide (os_type env = "Darwin")); eexists _, _;
    (split; [reflexivity |]); cbn [position size oldSize calls emit];
    repeat split; rewrite <- ?app_assoc; reflexivity.
Qed.

Lemma point_object_other (p : Point.t) (k : string) :
  k <> "x" -> k <> "y" -> point_object p !! k = None.
Proof.
  intros Hx Hy. unfold point_object.
  rewrite lookup_insert_ne by congruence.
  rewrite lookup_insert_ne by congruence. apply lookup_empty.
Qed.

Lemma size_object_other (s : Size.t) (k : string) :
  k <> "width" -> k <> "height" -> size_object s !! k = None.
Proof.
  intros Hw Hh. unfold size_object.
  rewrite lookup_insert_ne by congruence.
  rewrite lookup_insert_ne by congruence. apply lookup_empty.
Qed.

Lemma windowOptions_no_geometry (env : Env) (k : string) :
  is_Some (windowOptions env !! k) ->
  k <> "x" /\ k <> "y" /\ k <> "width" /\ k <> "height".
Proof.
  intros [v Hv]. repeat split; intros ->; discriminate Hv.
Qed.

(** X16: the window for the ['AlwaysOnTop'] frame is created with the
    options of the module, whatever the page asked for: each of the
    thirteen fixed options has the module's value, [x] and [y] are those
    of [getPosition], [width] and [height] those of the stored size, and
    only the other options are the page's. *)
Theorem new_window_options (env : Env) (id : Z) (options : gmap string value)
    (w : World) :
  exists nw : NewWindow,
    fst (onAlwaysOnTopWindow env id "AlwaysOnTop" options w) = Normal (Some nw)
    /\ (forall k v, windowOptions env !! k = Some v ->
                    nw_options nw !! k = Some v)
    /\ nw_options nw !! "x" = Some (VNum (Point.x (getPosition env w)))
    /\ nw_options nw !! "y" = Some (VNum (Point.y (getPosition env w)))
    /\ nw_options nw !! "width" = Some (VNum (Size.width (size w)))
    /\ nw_options nw !! "height" = Some (VNum (Size.height (size w)))
    /\ (forall k, windowOptions env !! k = None ->
                  k <> "x" -> k <> "y" -> k <> "width" -> k <> "height" ->
                  nw_options nw !! k = options !! k).
Proof.
  destruct (onAlwaysOnTopWindow_outcome env id options w)
    as (listeners & w' & -> & _).
  eexists. split; [reflexivity |]. cbn [nw_options].
  split; [| split; [| split; [| split; [| split]]]].
  - intros k v Hk.
    destruct (windowOptions_no_geometry env k (ex_intro _ v Hk))
      as (Hx & Hy & Hw & Hh).
    rewrite lookup_union_r by (apply size_object_other; assumption).
    rewrite lookup_union_r by (apply point_object_other; assumption).
    apply lookup_union_Some_l, Hk.
  - rewrite lookup_union_r by reflexivity.
    apply lookup_union_Some_l. reflexivity.
  - rewrite lookup_union_r by reflexivity.
    apply lookup_union_Some_l. reflexivity.
  - apply lookup_union_Some_l. reflexivity.
  - apply lookup_union_Some_l. reflexivity.
  - intros k Hk Hx Hy Hw Hh.
    rewrite lookup_union_r by (apply size_object_other; assumption).
    rewrite lookup_union_r by (apply point_object_other; assumption).
    apply lookup_union_r, Hk.
Qed.

(** X17: creating the window does not disturb the stored geometry: the
    position, the size and [oldSize] are as before, the toolkit is asked
    for [preventDefault] and, on macOS, [setAspectRatio], and a window
    created again right after gets the same [x], [y], [width] and
    [height]. *)
Theorem reopened_window_has_same_geometry (env : Env) (id1 id2 : Z)
    (options1 options2 : gmap string value) (w : World) :
  let r1 := onAlwaysOnTopWindow env id1 "AlwaysOnTop" options1 w in
  let r2 := onAlwaysOnTopWindow env id2 "AlwaysOnTop" options2 (snd r1) in
  position (snd r1) = position w /\ size (snd r1) = size w
  /\ oldSize (snd r1) = oldSize w
  /\ exists nw1 nw2 : NewWindow,
       fst r1 = Normal (Some nw1) /\ fst r2 = Normal (Some nw2)
       /\ forall k, k = "x" \/ k = "y" \/ k = "width" \/ k = "height" ->
                    nw_options nw1 !! k = nw_options nw2 !! k.
Proof.
  intros r1 r2. subst r2 r1.
  destruct (onAlwaysOnTopWindow_outcome env id1 options1 w)
    as (listeners1 & w1 & -> & Hpos & Hsize & Hold & _).
  cbn [snd fst].
  destruct (onAlwaysOnTopWindow_outcome env id2 options2 w1)
    as (listeners2 & w2 & -> & _).
  cbn [snd fst]. split; [exact Hpos |]. split; [exact Hsize |].
  split; [exact Hold |]. eexists _, _.
  split; [reflexivity |]. split; [reflexivity |]. cbn [nw_options].
  assert (Hget : getPosition env w1 = getPosition env w).
  { unfold getPosition. rewrite Hpos, Hsize. reflexivity. }
  rewrite Hget, Hsize.
  intros k [-> | [-> | [-> | ->]]].
  - rewrite !(lookup_union_r (size_object _)) by reflexivity.
    rewrite !(lookup_union_Some_l (point_object _) _ "x" _ eq_refl).
    reflexivity.
  - rewrite !(lookup_union_r (size_object _)) by reflexivity.
    rewrite !(lookup_union_Some_l (point_object _) _ "y" _ eq_refl).
    reflexivity.
  - rewrite !(lookup_union_Some_l (size_object _) _ "width" _ eq_refl).
    reflexivity.
  - rewrite !(lookup_union_Some_l (size_object _) _ "height" _ eq_refl).
    reflexivity.
Qed.

Lemma listener_throws_exactly_when_witness :
  let env := desktop "linux" "Linux" {| Point.x := 0; Point.y := 0 |} in
  let msg := VObj (<["type" := VStr "event"]> (<["data" := VNull]> ∅)) in
  fst (setupAlwaysOnTopMain env msg (initial env)) = Throw TypeError.
Proof.
  intros env msg.
  apply (proj1 (listener_throws_exactly_when env msg (initial env))).
  right. right.
  exists (<["type" := VStr "event"]> (<["data" := VNull]> ∅)).
  repeat split.
Defined.

Lemma new_window_options_witness :
  let env := desktop "linux" "Linux" {| Point.x := 0; Point.y := 0 |} in
  let options := <["show" := VBool true]> (<["title" := VStr "Jitsi"]> ∅) in
  exists nw : NewWindow,
    fst (onAlwaysOnTopWindow env 7 "AlwaysOnTop" options (initial env))
    = Normal (Some nw)
    /\ nw_options nw !! "show" = Some (VBool false)
    /\ nw_options nw !! "title" = Some (VStr "Jitsi").
Proof.
  intros env options.
  destruct (new_window_options env 7 options (initial env))
    as (nw & Hnw & Hfixed & _ & _ & _ & _ & Hother).
  exists nw. split; [exact Hnw |]. split.
  - apply Hfixed. reflexivity.
  - rewrite Hother; [reflexivity | reflexivity | discriminate ..].
Defined.

Lemma reopened_window_has_same_geometry_witness :
  let env := desktop "linux" "Linux" {| Point.x := 0; Point.y := 0 |} in
  let w := snd (setupAlwaysOnTopMain env
                  (position_message (VNum 50) (VNum 60)) (initial env)) in
  let r1 := onAlwaysOnTopWindow env 7 "AlwaysOnTop" ∅ w in
  let r2 := onAlwaysOnTopWindow env 8 "AlwaysOnTop" ∅ (snd r1) in
  exists nw1 nw2 : NewWindow,
    fst r1 = Normal (Some nw1) /\ fst r2 = Normal (Some nw2)
    /\ nw_options nw1 !! "x" = nw_options nw2 !! "x".
Proof.
  intros env w r1 r2.
  destruct (reopened_window_has_same_geometry env 7 8 ∅ ∅ w)
    as (_ & _ & _ & nw1 & nw2 & H1 & H2 & Hsame).
  exists nw1, nw2. split; [exact H1 |]. split; [exact H2 |].
  apply Hsame. left. reflexivity.
Defined.

(** ** Messages the listener does not know *)

Lemma strict_eq_str_refl (s : string) : strict_eq_str (VStr s) s = true.
Proof. simpl. apply bool_decide_eq_true_2. reflexivity. Qed.

(** What the parameter pattern makes of each kind of message. *)
Lemma destructure_cases (msg : value) :
  (destructure msg = Throw TypeError /\ (msg = VUndefined \/ msg = VNull))
  \/ (exists o, msg = VObj o
                /\ destructure msg
                   = Normal (prop o "type",
                             match prop o "data" with
                             | VUndefined => VObj ∅
                             | _ => prop o "data"
                             end))
  \/ (destructure msg = Normal (VUndefined, VObj ∅)
      /\ forall o, msg <> VObj o).
Proof.
  destruct msg as [| | b | n | s | o].
  - left. auto.
  - left. auto.
  - right. right. split; [reflexivity | discriminate].
  - right. right. split; [reflexivity | discriminate].
  - right. right. split; [reflexivity | discriminate].
  - right. left. exists o. split; reflexivity.
Qed.

(** After the default, only a [null] [data] has no [name] to read. *)
Lemma defaulted_data_name (d : value) :
  let data := match d with VUndefined => VObj ∅ | _ => d end in
  (d = VNull /\ get data "name" = Throw TypeError)
  \/ (d <> VNull /\ exists name, get data "name" = Normal name).
Proof.
  destruct d; cbn; try (right; split; [discriminate | eauto]).
  left. auto.
Qed.

(** C9, as the code has it: a message that is not a position report nor
    a size reset (its [type] is not ['event'], or its [data.name] is
    neither ['position'] nor ['resetSize']) leaves the stored position
    and the stored size, and the rest of the state, as they were.  No
    error is raised, except for a message that is [undefined] or [null]
    and for an ['event'] whose [data] is [null]: there the listener
    throws a [TypeError]. *)
Theorem unexpected_message_changes_nothing (env : Env) (msg : value)
    (w : World) :
  unexpected msg ->
  let r := setupAlwaysOnTopMain env msg w in
  snd r = w
  /\ position (snd r) = position w
  /\ size (snd r) = size w
  /\ (~ unreadable msg -> fst r = Normal tt)
  /\ (unreadable msg -> fst r = Throw TypeError).
Proof.
  intros [Hpos Hreset] r.
  assert (Hr : snd r = w
               /\ (~ unreadable msg -> fst r = Normal tt)
               /\ (unreadable msg -> fst r = Throw TypeError)).
  { subst r. rewrite listener_outcome.
    destruct (reported msg) as [[x y] |] eqn:Hrep.
    { exfalso. apply Hpos. revert Hrep. unfold reported, handled_as.
      destruct (destructure msg) as [[type data] | e]; [| discriminate].
      destruct (strict_eq_str type "event") eqn:Htype; [| discriminate].
      destruct (get data "name") as [name | e] eqn:Hget; [| discriminate].
      destruct (get data "x"); [| discriminate].
      destruct (get data "y"); [| discriminate].
      destruct (strict_eq_str name "position") eqn:Hname; [| discriminate].
      intros _. apply strict_eq_str_true in Hname. subst name.
      eexists _, _. split; [reflexivity |]. split; assumption. }
    clear Hrep.
    destruct (destructure_cases msg)
      as [[-> Hmsg] | [(o & -> & ->) | [Hd Hmsg]]].
    - cbn [fst snd]. split; [reflexivity |].
      split; [| reflexivity].
      intros Hreadable. exfalso. apply Hreadable.
      destruct Hmsg as [-> | ->]; [left | right; left]; reflexivity.
    - destruct (strict_eq_str (prop o "type") "event") eqn:Htype.
      + apply strict_eq_str_true in Htype.
        destruct (defaulted_data_name (prop o "data"))
          as [[Hnull ->] | [Hnull (name & Hname)]].
        * cbn [fst snd]. split; [reflexivity |].
          split; [| reflexivity].
          intros Hreadable. exfalso. apply Hreadable.
          right. right. exists o. auto.
        * cbv zeta in Hname. rewrite Hname.
          assert (Hother : strict_eq_str name "resetSize" = false).
          { destruct (strict_eq_str name "resetSize") eqn:Hn; [| reflexivity].
            exfalso. apply Hreset. apply strict_eq_str_true in Hn. subst name.
            eexists _, _. split; [reflexivity |].
            split; [| exact Hname].
            rewrite Htype. apply strict_eq_str_refl. }
          rewrite Hother. cbn [fst snd]. split; [reflexivity |].
          split; [reflexivity |].
          intros [H | [H | (o' & [= <-] & _ & Hdata)]];
            try discriminate H. contradiction.
      + cbn [fst snd]. split; [reflexivity |]. split; [reflexivity |].
        intros [H | [H | (o' & [= <-] & Htype' & _)]]; try discriminate H.
        rewrite Htype' in Htype. rewrite strict_eq_str_refl in Htype.
        discriminate Htype.
    - rewrite Hd. cbn [fst snd strict_eq_str]. split; [reflexivity |].
      split; [reflexivity |].
      intros [-> | [-> | (o' & -> & _)]];
        [discriminate Hd | discriminate Hd
        | exfalso; apply (Hmsg o'); reflexivity]. }
  destruct Hr as (Hsame & Hnormal & Hthrow).
  rewrite Hsame. auto.
Qed.

Lemma unexpected_message_changes_nothing_witness :
  let env := desktop "linux" "Linux" {| Point.x := 0; Point.y := 0 |} in
  let w := set_size {| Size.width := 640; Size.height := 360 |} (initial env) in
  let msg := VObj (<["type" := VStr "event"]>
                   (<["data" := VObj (<["name" := VStr "move"]> ∅)]> ∅)) in
  snd (setupAlwaysOnTopMain env msg w) = w
  /\ fst (setupAlwaysOnTopMain env msg w) = Normal tt.
Proof.
  intros env w msg.
  assert (Hd : destructure msg
               = Normal (VStr "event", VObj (<["name" := VStr "move"]> ∅)))
    by reflexivity.
  assert (Hunexpected : unexpected msg).
  { split; intros (type & data & Hmsg & _ & Hname);
      rewrite Hd in Hmsg; injection Hmsg as <- <-; discriminate Hname. }
  destruct (unexpected_message_changes_nothing env msg w Hunexpected)
    as (Hsame & _ & _ & Hnormal & _).
  split; [exact Hsame |]. apply Hnormal.
  intros [H | [H | (o & [= <-] & _ & Hdata)]]; discriminate.
Defined.

(** C9, as stated, fails on the error: an ['event'] whose [data] is
    [null] is neither a position report nor a size reset, and the
    listener throws a [TypeError] on it. *)
Lemma unexpected_message_raises :
  let env := desktop "linux" "Linux" {| Point.x := 0; Point.y := 0 |} in
  let msg := VObj (<["type" := VStr "event"]> (<["data" := VNull]> ∅)) in
  unexpected msg
  /\ fst (setupAlwaysOnTopMain env msg (initial env)) = Throw TypeError
  /\ fst (setupAlwaysOnTopMain env msg (initial env)) <> Normal tt.
Proof.
  intros env msg.
  assert (Hd : destructure msg = Normal (VStr "event", VNull)) by reflexivity.
  split; [| split; [reflexivity | discriminate]].
  split; intros (type & data & Hmsg & _ & Hname);
    rewrite Hd in Hmsg; injection Hmsg as <- <-; discriminate Hname.
Qed.
